(** * ReplicationStore (packages/mongo/replication_store.js)

    A shallow embedding of the [ReplicationStore] class: the batch
    bracket [beginUpdate] / [endUpdate] and the message reconciler
    [update] with its four helpers, over a model of the local collection
    the class drives. *)

From stdpp Require Import gmap strings list fin_maps.
From Stdlib Require Import ZArith.

Local Open Scope string_scope.
Local Open Scope Z_scope.
Local Open Scope list_scope.

(** ** Collaborators that live outside the file *)

(** Modelled from the spec: the value domain and the two primitives the
    store imports, which the spec lists as external collaborators (§1):
    "equality comparison of arbitrary field values (assumed to be a
    provided deep-equality primitive)" is [EJSON.equals], and "identifier
    parsing" is [MongoID.idParse].  [ejson] is the type of defined EJSON
    values; a JavaScript value is an [option ejson], [None] being
    [undefined].  The first argument [_processChanged] hands to
    [EJSON.equals] is a property read, which can also yield a member a
    document inherits from [Object.prototype]; [EJSON_equals_inherited
    name v] is the answer of [EJSON.equals] when its first argument is
    that member.  Nothing is assumed of [EJSON_equals],
    [EJSON_equals_inherited] or [MongoID_idParse] beyond their types. *)
Class Collaborators := {
  ejson : Type;
  ejson_eq_dec :: EqDecision ejson;
  ejson_countable :: Countable ejson;
  EJSON_equals : option ejson → option ejson → bool;
  EJSON_equals_inherited : string → option ejson → bool;
  MongoID_idParse : string → option ejson;
}.

(** A JavaScript value, [undefined] included. *)
Abbreviation jsval := (option ejson).
Abbreviation undefined := (@None ejson).

(** A plain JavaScript object: own keys to values.  A key may be bound to
    [undefined], which is how a [changed] message asks for a field to be
    deleted. *)
Abbreviation object := (gmap string (option ejson)).

Section Model.
Context {env : Collaborators}.

(** The own property [key] of [o], [undefined] when [o] has no such own
    key: [msg.fields[key]] for a [key] taken from [Object.keys], and the
    [_id] the collection reads off a document. *)
Definition obj_get (o : object) (key : string) : jsval :=
  match o !! key with
  | Some v => v
  | None => undefined
  end.

(** The property names of [Object.prototype], which every plain object
    inherits. *)
Definition Object_prototype_names : list string :=
  ["constructor"; "__defineGetter__"; "__defineSetter__"; "hasOwnProperty";
   "__lookupGetter__"; "__lookupSetter__"; "isPrototypeOf";
   "propertyIsEnumerable"; "toString"; "valueOf"; "__proto__";
   "toLocaleString"].

(** What reading a property of a document yields: the value of an own
    key, [undefined], or the member of that name the document inherits
    from [Object.prototype]. *)
Inductive property :=
  | Own_value (v : jsval)
  | Inherited (name : string).

(** [doc[key]] for a document, a plain object: an own key wins, then the
    prototype is asked, and only a name found nowhere gives
    [undefined]. *)
Definition doc_get (doc : object) (key : string) : property :=
  match doc !! key with
  | Some v => Own_value v
  | None =>
      if bool_decide (key ∈ Object_prototype_names) then Inherited key
      else Own_value undefined
  end.

(** [EJSON.equals(p, value)] where [p] is what a property read gave. *)
Definition EJSON_equals_read (p : property) (value : jsval) : bool :=
  match p with
  | Own_value v => EJSON_equals v value
  | Inherited name => EJSON_equals_inherited name value
  end.

(** [o[key] = v] on an object the code has just created with [{}]: an
    own property is written, except that the name [__proto__] reaches
    the setter [Object.prototype] provides, which stores no own key. *)
Definition property_assign {A} (key : string) (v : A) (o : gmap string A)
    : gmap string A :=
  if bool_decide (key = "__proto__") then o else <[key := v]> o.

(** [Object.keys(o)]. *)
Definition Object_keys (o : object) : list string := (map_to_list o).*1.

(** [typeof value === 'undefined']. *)
Definition is_undefined (value : jsval) : bool :=
  match value with
  | None => true
  | Some _ => false
  end.

(** The wire message handed to [update]: [msg.msg], [msg.id],
    [msg.fields] and [msg.replace].  An optional member that is missing
    is [None]; for [replace], which the code only tests for truthiness,
    [None] also stands for [null]. *)
Record message := {
  m_msg : string;
  m_id : string;
  m_fields : option object;
  m_replace : option object;
}.

(** The modifier object built by [_processChanged]: it has a [$set]
    member, a [$unset] member, both or neither. *)
Record modifier := {
  dollar_set : option object;
  dollar_unset : option (gmap string Z);
}.

(** [{}]. *)
Definition empty_modifier : modifier :=
  {| dollar_set := None; dollar_unset := None |}.

(** [Object.keys(modifier).length > 0]. *)
Definition modifier_has_keys (m : modifier) : bool :=
  match dollar_set m, dollar_unset m with
  | None, None => false
  | _, _ => true
  end.

(** Modelled from the spec: the operations the store must offer (§4.1),
    as the calls [ReplicationStore] makes on [this.collection]; a log of
    them tells how often, and in which order, each was issued. *)
Inductive call :=
  | call_pauseObservers
  | call_resumeObservers
  | call_remove_all
  | call_insert (doc : object)
  | call_update_modifier (id : jsval) (m : modifier)
  | call_update_replace (id : jsval) (doc : object)
  | call_remove (id : jsval).

(** Modelled from the spec: the local collection ([connector._collection]),
    whose code is not part of this file.  It holds the documents keyed by
    identifier ([_docs]), whether notifications are suspended, and the
    log of calls received. *)
Record collection := {
  _docs : gmap (option ejson) object;
  paused : bool;
  calls : list call;
}.

(** What a JavaScript call can throw here. *)
Inductive error :=
  | Error (message : string)
  | TypeError (message : string)
  | ContractViolation (operation : string).

Inductive outcome (A : Type) :=
  | Return (a : A)
  | Throw (e : error).
Global Arguments Return {A} a.
Global Arguments Throw {A} e.

(** A method body: it runs on the collection and leaves it in the state
    reached when it returned or threw. *)
Definition M (A : Type) : Type := collection → collection * outcome A.

Definition ret {A} (a : A) : M A := λ s, (s, Return a).
Definition throw {A} (e : error) : M A := λ s, (s, Throw e).
Definition bind {A B} (c : M A) (k : A → M B) : M B :=
  λ s, match c s with
       | (s', Return a) => k a s'
       | (s', Throw e) => (s', Throw e)
       end.

Local Notation "c1 >> c2" := (bind c1 (λ _, c2))
  (at level 61, left associativity, only parsing).

(** The three ways the state moves: a call is appended to the log, the
    documents are replaced, the suspension flag is set. *)
Definition logged (c : call) : M unit :=
  λ s, ({| _docs := _docs s; paused := paused s; calls := calls s ++ [c] |},
        Return tt).

Definition set_docs (d : gmap (option ejson) object) : M unit :=
  λ s, ({| _docs := d; paused := paused s; calls := calls s |}, Return tt).

Definition set_paused (b : bool) : M unit :=
  λ s, ({| _docs := _docs s; paused := b; calls := calls s |}, Return tt).

(** Modelled from the spec: [suspend_notifications()] (§4.1),
    [collection.pauseObservers()] in the code. *)
Definition collection_pauseObservers : M unit :=
  logged call_pauseObservers >> set_paused true.

(** Modelled from the spec: [resume_notifications()] (§4.1),
    [collection.resumeObservers()] in the code. *)
Definition collection_resumeObservers : M unit :=
  logged call_resumeObservers >> set_paused false.

(** Modelled from the spec: [remove_all()], "clears every document"
    (§4.1); [collection.remove({})] in the code. *)
Definition collection_remove_all : M unit :=
  logged call_remove_all >> set_docs ∅.

(** Modelled from the spec: [insert(doc)], which "fails if a document
    with that identifier already exists" (§4.1).  The identifier of the
    object handed over is its [_id] member. *)
Definition collection_insert (doc : object) : M unit :=
  logged (call_insert doc) >>
  λ s, match _docs s !! obj_get doc "_id" with
       | Some _ => throw (ContractViolation "insert") s
       | None => set_docs (<[obj_get doc "_id" := doc]> (_docs s)) s
       end.

(** Modelled from the spec: [remove(id)], which "fails if no document
    exists" (§4.1). *)
Definition collection_remove (id : jsval) : M unit :=
  logged (call_remove id) >>
  λ s, match _docs s !! id with
       | Some _ => set_docs (delete id (_docs s)) s
       | None => throw (ContractViolation "remove") s
       end.

(** Modelled from the spec: what a [{set, unset}] patch (§3) does to a
    document: the [$set] bindings are written over [doc], the [$unset]
    keys are deleted. *)
Definition apply_modifier (m : modifier) (doc : object) : object :=
  filter (λ kv, default ∅ (dollar_unset m) !! kv.1 = None)
         (default ∅ (dollar_set m) ∪ doc).

(** Modelled from the spec: [update(id, patch)], which "fails if no
    document with that identifier exists; patch is {set, unset}" (§4.1). *)
Definition collection_update_modifier (id : jsval) (m : modifier) : M unit :=
  logged (call_update_modifier id m) >>
  λ s, match _docs s !! id with
       | Some doc => set_docs (<[id := apply_modifier m doc]> (_docs s)) s
       | None => throw (ContractViolation "update") s
       end.

(** Modelled from the spec: [update(id, doc)] with a whole document,
    "treated as full-document overwrite ... a plain field overwrite, not
    a merge" (§4.3); the document keeps its identifier. *)
Definition collection_update_replace (id : jsval) (doc : object) : M unit :=
  logged (call_update_replace id doc) >>
  λ s, match _docs s !! id with
       | Some _ => set_docs (<[id := <["_id" := id]> doc]> (_docs s)) s
       | None => throw (ContractViolation "update") s
       end.

(** ** The class *)

(** [beginUpdate(batchSize, reset)]. *)
Definition beginUpdate (batchSize : Z) (reset : bool) : M unit :=
  (if (1 <? batchSize) || reset then collection_pauseObservers else ret tt) >>
  (if reset then collection_remove_all else ret tt).

(** [_processReplace(mongoId, doc, msg)]; [doc] is what [_docs.get]
    returned. *)
Definition _processReplace (mongoId : jsval) (doc : option object)
    (msg : message) : M unit :=
  match m_replace msg with
  | None =>
      match doc with
      | Some _ => collection_remove mongoId
      | None => ret tt
      end
  | Some replace =>
      match doc with
      | None => collection_insert replace
      | Some _ => collection_update_replace mongoId replace
      end
  end.

(** [{ _id: mongoId, ...msg.fields }]: spreading [undefined] adds
    nothing, and a spread key overrides an earlier one. *)
Definition added_document (mongoId : jsval) (fields : option object) : object :=
  default ∅ fields ∪ {[ "_id" := mongoId ]}.

(** [_processAdded(mongoId, msg)]. *)
Definition _processAdded (mongoId : jsval) (msg : message) : M unit :=
  collection_insert (added_document mongoId (m_fields msg)).

(** [_processRemoved(mongoId, _doc, _msg)]. *)
Definition _processRemoved (mongoId : jsval) (_doc : object)
    (_msg : message) : M unit :=
  collection_remove mongoId.

(** The body of the [keys.forEach] callback of [_processChanged], as a
    function from the modifier built so far to the next one. *)
Definition forEach_key (doc fields : object) (m : modifier) (key : string)
    : modifier :=
  let value := obj_get fields key in
  if EJSON_equals_read (doc_get doc key) value then m
  else if is_undefined value then
    {| dollar_set := dollar_set m;
       dollar_unset :=
         Some (property_assign key 1 (default ∅ (dollar_unset m))) |}
  else
    {| dollar_set :=
         Some (property_assign key value (default ∅ (dollar_set m)));
       dollar_unset := dollar_unset m |}.

(** The modifier [_processChanged] has built when the loop ends. *)
Definition changed_modifier (doc fields : object) : modifier :=
  foldl (forEach_key doc fields) empty_modifier (Object_keys fields).

(** [_processChanged(mongoId, doc, msg)].  [Object.keys(undefined)]
    throws a [TypeError]. *)
Definition _processChanged (mongoId : jsval) (doc : object)
    (msg : message) : M unit :=
  match m_fields msg with
  | None => throw (TypeError "Cannot convert undefined or null to object")
  | Some fields =>
      if (0 <? length (Object_keys fields))%nat then
        if modifier_has_keys (changed_modifier doc fields)
        then collection_update_modifier mongoId (changed_modifier doc fields)
        else ret tt
      else ret tt
  end.

(** [update(msg)]. *)
Definition update (msg : message) : M unit :=
  λ s,
  let mongoId := MongoID_idParse (m_id msg) in
  let doc := _docs s !! mongoId in
  (if String.eqb (m_msg msg) "replace" then
     _processReplace mongoId doc msg
   else if String.eqb (m_msg msg) "added" then
     match doc with
     | Some _ =>
         throw (Error "Expected not to find a document already present for an add")
     | None => _processAdded mongoId msg
     end
   else if String.eqb (m_msg msg) "removed" then
     match doc with
     | None =>
         throw (Error "Expected to find a document already present for removed")
     | Some d => _processRemoved mongoId d msg
     end
   else if String.eqb (m_msg msg) "changed" then
     match doc with
     | None => throw (Error "Expected to find a document to change")
     | Some d => _processChanged mongoId d msg
     end
   else
     throw (Error ("I don't know how to deal with this message: " +:+ m_msg msg))) s.

(** [endUpdate()]. *)
Definition endUpdate : M unit := collection_resumeObservers.

(** ** One batch, as a caller runs it *)

(** Modelled from the spec: the caller's [apply] loop (§6), [update] on
    each message in turn; an exception ends the run (§7). *)
Fixpoint update_each (msgs : list message) : M unit :=
  match msgs with
  | [] => ret tt
  | msg :: rest => update msg >> update_each rest
  end.

(** Modelled from the spec: the call sequence of a batch (§6, §8),
    [begin_update], one [apply] per message, [end_update]. *)
Definition batch (batchSize : Z) (reset : bool) (msgs : list message) : M unit :=
  beginUpdate batchSize reset >> update_each msgs >> endUpdate.

(** ** Vocabulary of the properties *)

(** The four tags [update] has a [case] for. *)
Definition recognized_tags : list string :=
  ["replace"; "added"; "removed"; "changed"].

(** The identifier [update] looks up for [msg]. *)
Definition mongoId_of (msg : message) : jsval := MongoID_idParse (m_id msg).

(** The four protocol violations: add on an existing identifier, remove
    or change on a missing one, and a tag [update] has no [case] for. *)
Definition protocol_violation (msg : message) (s : collection) : Prop :=
  (m_msg msg = "added" ∧ is_Some (_docs s !! mongoId_of msg))
  ∨ (m_msg msg = "removed" ∧ _docs s !! mongoId_of msg = None)
  ∨ (m_msg msg = "changed" ∧ _docs s !! mongoId_of msg = None)
  ∨ m_msg msg ∉ recognized_tags.

(** A well-formed message has the members its tag requires and names no
    identifier but its own: [added] and [changed] carry a [fields]
    mapping, which has no [_id] key, and the document of a [replace]
    carries the message's identifier as its [_id]. *)
Definition well_formed (msg : message) : Prop :=
  (m_msg msg = "added" ∨ m_msg msg = "changed" →
     ∃ fields, m_fields msg = Some fields ∧ fields !! "_id" = None)
  ∧ (m_msg msg = "replace" →
     ∀ doc, m_replace msg = Some doc → obj_get doc "_id" = mongoId_of msg).

(** The keys the loop body of [_processChanged] writes into [$set],
    resp. into [$unset]: the comparison has failed, and the name is not
    [__proto__], which no assignment stores. *)
Definition sets_key (doc fields : object) (k : string) : Prop :=
  k ≠ "__proto__"
  ∧ EJSON_equals_read (doc_get doc k) (obj_get fields k) = false
  ∧ is_undefined (obj_get fields k) = false.

Definition unsets_key (doc fields : object) (k : string) : Prop :=
  k ≠ "__proto__"
  ∧ EJSON_equals_read (doc_get doc k) (obj_get fields k) = false
  ∧ is_undefined (obj_get fields k) = true.

Definition is_pause (c : call) : bool :=
  match c with call_pauseObservers => true | _ => false end.

Definition is_resume (c : call) : bool :=
  match c with call_resumeObservers => true | _ => false end.

(** How many times a log suspends, and resumes, notifications. *)
Definition pauses (l : list call) : nat := length (List.filter is_pause l).
Definition resumes (l : list call) : nat := length (List.filter is_resume l).

(** A message has the members its tag requires: [added] and [changed]
    carry a [fields] mapping. *)
Definition has_required_members (msg : message) : Prop :=
  m_msg msg = "added" ∨ m_msg msg = "changed" → is_Some (m_fields msg).

(** The document [update] hands to [insert] when the message's
    identifier is not in the store: the replacement of a [replace], the
    object [_processAdded] builds for an [added]. *)
Definition inserted_document (msg : message) : option object :=
  if String.eqb (m_msg msg) "replace" then m_replace msg
  else if String.eqb (m_msg msg) "added"
       then Some (added_document (mongoId_of msg) (m_fields msg))
       else None.

(** The message's identifier is free, but the document to insert
    carries an [_id] the store already holds. *)
Definition insert_collision (msg : message) (s : collection) : Prop :=
  ∃ d, inserted_document msg = Some d
       ∧ _docs s !! mongoId_of msg = None
       ∧ is_Some (_docs s !! obj_get d "_id").

(** Every document is stored under the identifier it carries as [_id]. *)
Definition ids_consistent (s : collection) : Prop :=
  ∀ id d, _docs s !! id = Some d → obj_get d "_id" = id.

(** The document a [changed] message asks for, field by field: a field
    the message does not name, or names with a value [EJSON.equals]
    finds equal to what reading [doc[key]] gives, stays; another is
    bound to the proposed value, or dropped when that value is
    [undefined]. *)
Definition changed_field (doc fields : object) (k : string) : option jsval :=
  match fields !! k with
  | None => doc !! k
  | Some v =>
      if EJSON_equals_read (doc_get doc k) v then doc !! k
      else match v with
           | Some _ => Some v
           | None => None
           end
  end.

End Model.

Notation "c1 >> c2" := (bind c1 (λ _, c2))
  (at level 61, left associativity, only parsing).

(** ** A concrete instance, for the worked examples *)

(** Strings and integers as the defined values, structural equality as
    the deep equality, and identifiers that parse to themselves.  A
    member inherited from [Object.prototype] is a function, or for
    [__proto__] the prototype object: neither is a string, a number or
    [undefined], so the deep equality tells it apart from all of them. *)
Definition demo : Collaborators :=
  {| ejson := string + Z;
     EJSON_equals := λ a b, bool_decide (a = b);
     EJSON_equals_inherited := λ _ _, false;
     MongoID_idParse := λ s, Some (inl s) |}.

(** A string value and a number value. *)
Definition str (s : string) : @ejson demo := inl s.
Definition num (n : Z) : @ejson demo := inr n.

(** A collection with no document, not suspended, nothing called yet. *)
Definition empty_collection : @collection demo :=
  {| _docs := ∅; paused := false; calls := [] |}.

(** The document [{_id: id, ...fields}] stored under [id]. *)
Definition with_doc (id : string) (fields : list (string * option (@ejson demo)))
    (c : @collection demo) : @collection demo :=
  {| _docs := <[Some (str id) := <["_id" := Some (str id)]> (list_to_map fields)]> (_docs c);
     paused := paused c;
     calls := calls c |}.

(** The message [{msg: tag, id: id, fields: fields, replace: replace}]. *)
Definition msg_of (tag id : string)
    (fields replace : option (list (string * option (@ejson demo))))
    : @message demo :=
  {| m_msg := tag; m_id := id;
     m_fields := list_to_map <$> fields;
     m_replace := list_to_map <$> replace |}.

(** The store [{1: {a: 5, b: 7}}]. *)
Definition store_ab : @collection demo :=
  with_doc "1" [("a", Some (num 5)); ("b", Some (num 7))] empty_collection.

(** The store [{1: {a: 5}, 2: {}}]. *)
Definition store_12 : @collection demo :=
  with_doc "1" [("a", Some (num 5))] (with_doc "2" [] empty_collection).

(** [{msg: 'changed', id: '1', fields: {b: undefined}}]. *)
Definition changed_unset_b : @message demo :=
  msg_of "changed" "1" (Some [("b", None)]) None.

(** [{msg: 'changed', id: '1', fields: {a: 5}}]. *)
Definition changed_same_a : @message demo :=
  msg_of "changed" "1" (Some [("a", Some (num 5))]) None.

(** [{msg: 'changed', id: '1', fields: {a: 6, b: undefined}}]. *)
Definition changed_a_b : @message demo :=
  msg_of "changed" "1" (Some [("a", Some (num 6)); ("b", None)]) None.

(** [{msg: 'changed', id: '1'}]. *)
Definition changed_no_fields : @message demo :=
  msg_of "changed" "1" None None.

(** [{msg: 'added', id: '3', fields: {x: 1}}]. *)
Definition added_3 : @message demo :=
  msg_of "added" "3" (Some [("x", Some (num 1))]) None.

(** [{msg: 'added', id: '1'}]. *)
Definition added_no_fields : @message demo :=
  msg_of "added" "1" None None.

(** [{msg: 'removed', id: '9'}]. *)
Definition removed_9 : @message demo :=
  msg_of "removed" "9" None None.

(** [{msg: 'replace', id: '1'}] and [{msg: 'replace', id: '9'}]. *)
Definition replace_none_1 : @message demo := msg_of "replace" "1" None None.
Definition replace_none_9 : @message demo := msg_of "replace" "9" None None.

(** The document [{_id: '3', x: 1}], and the messages that carry it as
    [replace] under the tag [replace], resp. [replaced]. *)
Definition doc_3 : gmap string (option (@ejson demo)) :=
  list_to_map [("_id", Some (str "3")); ("x", Some (num 1))].

Definition replace_3 : @message demo :=
  {| m_msg := "replace"; m_id := "3"; m_fields := None;
     m_replace := Some doc_3 |}.

Definition replaced_3 : @message demo :=
  {| m_msg := "replaced"; m_id := "3"; m_fields := None;
     m_replace := Some doc_3 |}.

(** The document stored under ['1'], and the [fields] of a message. *)
Definition obj_of_store (c : @collection demo) : gmap string (option (@ejson demo)) :=
  default ∅ (_docs c !! Some (str "1")).

Definition fields_of (msg : @message demo) : gmap string (option (@ejson demo)) :=
  default ∅ (m_fields msg).

(** [{msg: 'added', id: '3', fields: {_id: '4', x: 1}}]. *)
Definition added_3_as_4 : @message demo :=
  msg_of "added" "3" (Some [("_id", Some (str "4")); ("x", Some (num 1))]) None.

(** [{msg: 'removed', id: '3'}]. *)
Definition removed_3 : @message demo := msg_of "removed" "3" None None.

(** [{msg: 'changed', id: '1', fields: {c: undefined}}]. *)
Definition changed_unset_c : @message demo :=
  msg_of "changed" "1" (Some [("c", None)]) None.

(** [{msg: 'changed', id: '9', fields: {a: 6}}]. *)
Definition changed_9 : @message demo :=
  msg_of "changed" "9" (Some [("a", Some (num 6))]) None.

(** [{msg: 'added', id: '3', fields: {_id: '1'}}]. *)
Definition added_3_as_1 : @message demo :=
  msg_of "added" "3" (Some [("_id", Some (str "1"))]) None.

(** [{msg: 'changed', id: '1', fields: {toString: undefined}}]. *)
Definition changed_unset_toString : @message demo :=
  msg_of "changed" "1" (Some [("toString", None)]) None.

(** The store [{1: {a: 5, __proto__: 7}}], [__proto__] an own key. *)
Definition store_proto : @collection demo :=
  with_doc "1" [("a", Some (num 5)); ("__proto__", Some (num 7))]
    empty_collection.

(** [{msg: 'changed', id: '1', fields: {__proto__: undefined}}],
    [__proto__] an own key. *)
Definition changed_unset_proto : @message demo :=
  msg_of "changed" "1" (Some [("__proto__", None)]) None.

(** ** Lemmas on the model *)

Section Lemmas.
Context {env : Collaborators}.

Local Ltac split_decides :=
  repeat match goal with
         | |- context [decide ?P] => destruct (decide P)
         end.

Lemma Object_keys_spec (o : object) (k : string) :
  k ∈ Object_keys o ↔ is_Some (o !! k).
Proof.
  unfold Object_keys. rewrite list_elem_of_fmap. split.
  - intros [[k' v] [-> Hin]]. apply elem_of_map_to_list in Hin. eauto.
  - intros [v Hv]. exists (k, v). split; [done|]. by apply elem_of_map_to_list.
Qed.

Lemma obj_get_Some (o : object) (k : string) (v : jsval) :
  o !! k = Some v → obj_get o k = v.
Proof. unfold obj_get. by intros ->. Qed.

Local Ltac solve_step :=
  repeat match goal with
         | H : _ ∧ _ |- _ => destruct H
         end;
  subst;
  first [ done
        | congruence
        | exfalso;
          match goal with
          | n : ¬ _ |- _ => apply n; repeat split; congruence
          end ].

Lemma property_assign_lookup {A} (key : string) (v : A) (o : gmap string A)
    (k : string) :
  property_assign key v o !! k =
  if decide (k = key ∧ k ≠ "__proto__") then Some v else o !! k.
Proof.
  unfold property_assign. case_bool_decide as Hp.
  - destruct (decide _) as [[-> Hn]|_]; done.
  - destruct (decide _) as [[-> _]|Hn].
    + by rewrite lookup_insert_eq.
    + destruct (decide (k = key)) as [->|Hne]; [|by rewrite lookup_insert_ne].
      exfalso. by apply Hn.
Qed.

Lemma forEach_key_set (doc fields : object) (m : modifier) (a k : string) :
  default ∅ (dollar_set (forEach_key doc fields m a)) !! k =
  if decide (k = a ∧ sets_key doc fields k)
  then Some (obj_get fields k)
  else default ∅ (dollar_set m) !! k.
Proof.
  unfold forEach_key, sets_key.
  destruct (EJSON_equals_read (doc_get doc a) (obj_get fields a)) eqn:Heq;
    [|destruct (is_undefined (obj_get fields a)) eqn:Hu]; simpl;
    rewrite ?property_assign_lookup;
    repeat match goal with
           | |- context [decide ?P] => destruct (decide P)
           end;
    try done; solve_step.
Qed.

Lemma forEach_key_unset (doc fields : object) (m : modifier) (a k : string) :
  default ∅ (dollar_unset (forEach_key doc fields m a)) !! k =
  if decide (k = a ∧ unsets_key doc fields k)
  then Some 1
  else default ∅ (dollar_unset m) !! k.
Proof.
  unfold forEach_key, unsets_key.
  destruct (EJSON_equals_read (doc_get doc a) (obj_get fields a)) eqn:Heq;
    [|destruct (is_undefined (obj_get fields a)) eqn:Hu]; simpl;
    rewrite ?property_assign_lookup;
    repeat match goal with
           | |- context [decide ?P] => destruct (decide P)
           end;
    try done; solve_step.
Qed.

Lemma foldl_forEach_key_set (doc fields : object) (l : list string)
    (m0 : modifier) (k : string) :
  default ∅ (dollar_set (foldl (forEach_key doc fields) m0 l)) !! k =
  if decide (k ∈ l ∧ sets_key doc fields k)
  then Some (obj_get fields k)
  else default ∅ (dollar_set m0) !! k.
Proof.
  revert m0. induction l as [|a l IH]; intros m0; cbn [foldl].
  - case_decide as Hd; [|done]. destruct Hd as [Hd _]. by apply elem_of_nil in Hd.
  - rewrite IH, forEach_key_set.
    split_decides; try done; exfalso;
      set_unfold; intuition (subst; eauto).
Qed.

Lemma foldl_forEach_key_unset (doc fields : object) (l : list string)
    (m0 : modifier) (k : string) :
  default ∅ (dollar_unset (foldl (forEach_key doc fields) m0 l)) !! k =
  if decide (k ∈ l ∧ unsets_key doc fields k)
  then Some 1
  else default ∅ (dollar_unset m0) !! k.
Proof.
  revert m0. induction l as [|a l IH]; intros m0; cbn [foldl].
  - case_decide as Hd; [|done]. destruct Hd as [Hd _]. by apply elem_of_nil in Hd.
  - rewrite IH, forEach_key_unset.
    split_decides; try done; exfalso;
      set_unfold; intuition (subst; eauto).
Qed.

Lemma changed_modifier_set (doc fields : object) (k : string) :
  default ∅ (dollar_set (changed_modifier doc fields)) !! k =
  if decide (is_Some (fields !! k) ∧ sets_key doc fields k)
  then Some (obj_get fields k) else None.
Proof.
  unfold changed_modifier. rewrite foldl_forEach_key_set. simpl.
  rewrite lookup_empty.
  split_decides; try done; exfalso; rewrite Object_keys_spec in *; tauto.
Qed.

Lemma changed_modifier_unset (doc fields : object) (k : string) :
  default ∅ (dollar_unset (changed_modifier doc fields)) !! k =
  if decide (is_Some (fields !! k) ∧ unsets_key doc fields k)
  then Some 1 else None.
Proof.
  unfold changed_modifier. rewrite foldl_forEach_key_unset. simpl.
  rewrite lookup_empty.
  split_decides; try done; exfalso; rewrite Object_keys_spec in *; tauto.
Qed.

(** The loop leaves the modifier alone on keys whose value
    [EJSON.equals] finds equal to what reading [doc[key]] gives. *)
Lemma foldl_forEach_key_equal (doc fields : object) (l : list string)
    (m0 : modifier) :
  (∀ k, k ∈ l →
     EJSON_equals_read (doc_get doc k) (obj_get fields k) = true) →
  foldl (forEach_key doc fields) m0 l = m0.
Proof.
  revert m0. induction l as [|a l IH]; intros m0 Hall; [done|].
  cbn [foldl]. unfold forEach_key at 2.
  rewrite (Hall a) by (apply elem_of_cons; by left).
  apply IH. intros k Hk. apply Hall, elem_of_cons. by right.
Qed.

(** A member that holds a binding is there. *)
Lemma default_lookup_Some {A} (o : option (gmap string A)) (k : string) (v : A) :
  default ∅ o !! k = Some v → ∃ m, o = Some m ∧ m !! k = Some v.
Proof.
  destruct o as [m|]; simpl; [eauto|]. by rewrite lookup_empty.
Qed.

Lemma apply_modifier_lookup (m : modifier) (doc : object) (k : string) :
  apply_modifier m doc !! k =
  match default ∅ (dollar_unset m) !! k with
  | Some _ => None
  | None =>
      match default ∅ (dollar_set m) !! k with
      | Some v => Some v
      | None => doc !! k
      end
  end.
Proof.
  unfold apply_modifier.
  destruct (default ∅ (dollar_unset m) !! k) as [u|] eqn:Hu.
  - apply map_lookup_filter_None. right. intros x _. simpl. by rewrite Hu.
  - destruct (default ∅ (dollar_set m) !! k) as [v|] eqn:Hs.
    + apply map_lookup_filter_Some. split; [|done].
      by apply lookup_union_Some_l.
    + destruct (doc !! k) as [w|] eqn:Hd.
      * apply map_lookup_filter_Some. split; [|done].
        by rewrite lookup_union_r.
      * apply map_lookup_filter_None. left. by rewrite lookup_union_r.
Qed.

End Lemmas.

(** ** The field diff of [_processChanged] *)

Section Diff.
Context {env : Collaborators}.

(** X17.  For every document and every proposed field mapping with no
    field named [__proto__], the [$set] and [$unset] members of the
    modifier [_processChanged] builds name disjoint sets of fields, and
    a field is in either only if the mapping proposes a value for it
    that [EJSON.equals] tells apart from what reading [doc[key]] gives;
    [$set] holds the proposed value, which is not [undefined], and
    [$unset] only fields proposed as [undefined]. *)
Theorem changed_modifier_disjoint_minimal (doc fields : object) :
  fields !! "__proto__" = None →
  let m := changed_modifier doc fields in
  let set := default ∅ (dollar_set m) in
  let unset := default ∅ (dollar_unset m) in
  dom set ## dom unset
  ∧ (∀ k, k ∈ dom set ∪ dom unset →
       is_Some (fields !! k)
       ∧ k ≠ "__proto__"
       ∧ EJSON_equals_read (doc_get doc k) (obj_get fields k) = false)
  ∧ (∀ k v, set !! k = Some v → fields !! k = Some v ∧ v ≠ undefined)
  ∧ (∀ k, is_Some (unset !! k) → fields !! k = Some undefined).
Proof.
  intros _ m set unset.
  assert (Hset : ∀ k, is_Some (set !! k) →
            is_Some (fields !! k) ∧ sets_key doc fields k).
  { intros k [v Hv]. subst set m. rewrite changed_modifier_set in Hv.
    by destruct (decide _). }
  assert (Hunset : ∀ k, is_Some (unset !! k) →
            is_Some (fields !! k) ∧ unsets_key doc fields k).
  { intros k [v Hv]. subst unset m. rewrite changed_modifier_unset in Hv.
    by destruct (decide _). }
  split; [|split; [|split]].
  - apply elem_of_disjoint. intros k Hs Hu.
    apply elem_of_dom, Hset in Hs as (_ & _ & _ & Hs).
    apply elem_of_dom, Hunset in Hu as (_ & _ & _ & Hu). congruence.
  - intros k Hk. apply elem_of_union in Hk as [Hk|Hk]; apply elem_of_dom in Hk.
    + apply Hset in Hk as (? & ? & ? & _). done.
    + apply Hunset in Hk as (? & ? & ? & _). done.
  - intros k v Hv. subst set m. rewrite changed_modifier_set in Hv.
    destruct (decide _) as [[[w Hw] (_ & _ & Hu)]|]; [|done].
    rewrite (obj_get_Some _ _ _ Hw) in Hv, Hu. injection Hv as <-.
    split; [done|]. by intros ->.
  - intros k Hk. destruct (Hunset k Hk) as [[w Hw] (_ & _ & Hu)].
    rewrite (obj_get_Some _ _ _ Hw) in Hu. by destruct w.
Qed.

End Diff.

(** ** The message reconciler *)

Section Reconciler.
Context {env : Collaborators}.

Local Ltac run_update :=
  unfold update, _processReplace, _processAdded, _processRemoved,
    _processChanged, collection_insert, collection_remove,
    collection_update_modifier, collection_update_replace,
    bind, logged, set_docs, throw, ret, mongoId_of in *.

(** X16.  When the document is in the store and, for every field a
    [changed] message proposes, [EJSON.equals] finds the proposed value
    equal to what reading [doc[key]] gives, the modifier built is [{}]
    and [update] returns with the collection exactly as it was: no
    document changed, no call issued. *)
Theorem changed_equal_fields_identity (msg : message) (s : collection)
    (doc fields : object) :
  m_msg msg = "changed" →
  _docs s !! mongoId_of msg = Some doc →
  m_fields msg = Some fields →
  (∀ k v, fields !! k = Some v →
     EJSON_equals_read (doc_get doc k) v = true) →
  changed_modifier doc fields = empty_modifier
  ∧ update msg s = (s, Return tt).
Proof.
  intros Htag Hdoc Hfields Hall.
  assert (Hm : changed_modifier doc fields = empty_modifier).
  { apply foldl_forEach_key_equal. intros k Hk.
    apply Object_keys_spec in Hk as [v Hv].
    rewrite (obj_get_Some _ _ _ Hv). by apply Hall. }
  split; [done|].
  run_update. rewrite Htag, Hdoc, Hfields, Hm. simpl.
  by destruct (0 <? _)%nat.
Qed.

(** Every tag is one of the four [case] labels or falls to [default]. *)
Lemma tag_cases (tag : string) :
  tag = "replace" ∨ tag = "added" ∨ tag = "removed" ∨ tag = "changed"
  ∨ tag ∉ recognized_tags.
Proof.
  destruct (decide (tag ∈ recognized_tags)) as [Hin|Hout]; [|tauto].
  unfold recognized_tags in Hin. set_unfold. tauto.
Qed.

Lemma unrecognized_tag_eqb (tag : string) :
  tag ∉ recognized_tags →
  String.eqb tag "replace" = false ∧ String.eqb tag "added" = false
  ∧ String.eqb tag "removed" = false ∧ String.eqb tag "changed" = false.
Proof.
  unfold recognized_tags. intros Hout.
  repeat split; apply String.eqb_neq; intros ->; apply Hout; repeat constructor.
Qed.

(** On a well-formed message [update] either meets one of the four
    violations and throws at once, or meets none and returns. *)
Lemma update_cases (msg : message) (s : collection) :
  well_formed msg →
  (protocol_violation msg s ∧ ∃ text, update msg s = (s, Throw (Error text)))
  ∨ (¬ protocol_violation msg s ∧ (update msg s).2 = Return tt).
Proof.
  intros [Hfields Hreplace].
  destruct (tag_cases (m_msg msg)) as [Ht|[Ht|[Ht|[Ht|Ht]]]].
  - right. split.
    { unfold protocol_violation, recognized_tags. rewrite Ht.
      intros [[? _]|[[? _]|[[? _]|Hout]]]; try done. apply Hout. repeat constructor. }
    specialize (Hreplace Ht). run_update. rewrite Ht. simpl.
    destruct (m_replace msg) as [replace|];
      destruct (_docs s !! MongoID_idParse (m_id msg)) as [d|] eqn:Hd;
      simpl; rewrite ?Hd; try done.
    rewrite (Hreplace replace eq_refl), Hd. done.
  - destruct (Hfields (or_introl Ht)) as [fields [Hf Hid]].
    destruct (_docs s !! mongoId_of msg) as [d|] eqn:Hd.
    + left. split.
      { left. rewrite Hd. eauto. }
      run_update. rewrite Ht, Hd. simpl. eauto.
    + right. split.
      { unfold protocol_violation, recognized_tags. rewrite Ht, Hd.
        intros [[_ [? ?]]|[[? _]|[[? _]|Hout]]]; try done. apply Hout. repeat constructor. }
      run_update. rewrite Ht, Hd, Hf. simpl.
      assert (Hget : obj_get (added_document (MongoID_idParse (m_id msg)) (Some fields)) "_id"
                     = MongoID_idParse (m_id msg)).
      { unfold added_document, obj_get. simpl.
        rewrite lookup_union_r by done. by rewrite lookup_singleton_eq. }
      rewrite Hget, Hd. done.
  - destruct (_docs s !! mongoId_of msg) as [d|] eqn:Hd.
    + right. split.
      { unfold protocol_violation, recognized_tags. rewrite Ht, Hd.
        intros [[? _]|[[_ ?]|[[? _]|Hout]]]; try done. apply Hout. repeat constructor. }
      run_update. rewrite Ht, Hd. simpl. rewrite Hd. done.
    + left. split.
      { right; left. by rewrite Hd. }
      run_update. rewrite Ht, Hd. simpl. eauto.
  - destruct (Hfields (or_intror Ht)) as [fields [Hf Hid]].
    destruct (_docs s !! mongoId_of msg) as [d|] eqn:Hd.
    + right. split.
      { unfold protocol_violation, recognized_tags. rewrite Ht, Hd.
        intros [[? _]|[[? _]|[[_ ?]|Hout]]]; try done. apply Hout. repeat constructor. }
      run_update. rewrite Ht, Hd, Hf. simpl.
      destruct (0 <? _)%nat; [|done].
      destruct (modifier_has_keys _); [|done].
      simpl. rewrite Hd. done.
    + left. split.
      { right; right; left. by rewrite Hd. }
      run_update. rewrite Ht, Hd. simpl. eauto.
  - left. split.
    { by do 3 right. }
    destruct (unrecognized_tag_eqb _ Ht) as (E1 & E2 & E3 & E4).
    run_update. rewrite E1, E2, E3, E4. eauto.
Qed.

(** X18.  For a message that has the members its tag requires and names
    no identifier but its own ([well_formed]), [update] throws if and
    only if the message is an add for an identifier in the store, a
    remove or a change for one that is not, or has a tag [update] does
    not know.
    In those cases the exception is an [Error] thrown from [update]
    itself, with the collection as it was on entry: nothing was called
    on it, nothing is tried again.  In every other case [update]
    returns. *)
Theorem update_throws_iff_violation (msg : message) (s : collection) :
  well_formed msg →
  ((∃ e, (update msg s).2 = Throw e) ↔ protocol_violation msg s)
  ∧ (protocol_violation msg s →
       ∃ text, update msg s = (s, Throw (Error text)))
  ∧ (¬ protocol_violation msg s → (update msg s).2 = Return tt).
Proof.
  intros Hwf.
  destruct (update_cases msg s Hwf) as [[Hv [text Ht]]|[Hnv Hr]].
  - split; [|split].
    + split; [done|]. intros _. rewrite Ht. eauto.
    + eauto.
    + done.
  - split; [|split].
    + split; [|done]. intros [e He]. congruence.
    + done.
    + done.
Qed.

(** On a message with its required members [update] either meets one of
    the four violations and throws at once, or hands the store a
    document whose [_id] is taken and the store's [insert] fails, or
    returns. *)
Lemma update_cases_members (msg : message) (s : collection) :
  has_required_members msg →
  (protocol_violation msg s ∧ ∃ text, update msg s = (s, Throw (Error text)))
  ∨ (¬ protocol_violation msg s ∧ insert_collision msg s
     ∧ (update msg s).2 = Throw (ContractViolation "insert")
     ∧ _docs (update msg s).1 = _docs s)
  ∨ (¬ protocol_violation msg s ∧ ¬ insert_collision msg s
     ∧ (update msg s).2 = Return tt).
Proof.
  intros Hmembers.
  destruct (tag_cases (m_msg msg)) as [Ht|[Ht|[Ht|[Ht|Ht]]]].
  - assert (Hnv : ¬ protocol_violation msg s).
    { unfold protocol_violation, recognized_tags. rewrite Ht.
      intros [[? _]|[[? _]|[[? _]|Hout]]]; try done.
      apply Hout. repeat constructor. }
    assert (Hins : inserted_document msg = m_replace msg).
    { unfold inserted_document. by rewrite Ht. }
    right. unfold insert_collision. rewrite Hins.
    run_update. rewrite Ht. simpl.
    destruct (m_replace msg) as [replace|];
      destruct (_docs s !! MongoID_idParse (m_id msg)) as [d|] eqn:Hd;
      simpl; rewrite ?Hd; simpl.
    + right. split; [done|]. split; [|done]. by intros (d' & _ & ? & _).
    + destruct (_docs s !! obj_get replace "_id") as [d'|] eqn:Hc.
      * left. split; [done|]. split; [|done]. exists replace. rewrite Hc. eauto.
      * right. split; [done|]. split; [|done].
        intros (d' & [= <-] & _ & [? Hs]). congruence.
    + right. split; [done|]. split; [|done]. by intros (d' & ? & _).
    + right. split; [done|]. split; [|done]. by intros (d' & ? & _).
  - destruct (_docs s !! mongoId_of msg) as [d|] eqn:Hd.
    + left. split.
      { left. rewrite Hd. eauto. }
      run_update. rewrite Ht, Hd. simpl. eauto.
    + assert (Hnv : ¬ protocol_violation msg s).
      { unfold protocol_violation, recognized_tags. rewrite Ht, Hd.
        intros [[_ [? ?]]|[[? _]|[[? _]|Hout]]]; try done.
        apply Hout. repeat constructor. }
      assert (Hins : inserted_document msg
                = Some (added_document (mongoId_of msg) (m_fields msg))).
      { unfold inserted_document. by rewrite Ht. }
      right. unfold insert_collision. rewrite Hins, Hd.
      run_update. rewrite Ht, Hd. simpl.
      destruct (_docs s !! obj_get
                  (added_document (MongoID_idParse (m_id msg)) (m_fields msg))
                  "_id") as [d'|] eqn:Hc.
      * left. split; [done|]. split; [|done]. eexists. rewrite Hc. eauto.
      * right. split; [done|]. split; [|done].
        intros (d' & [= <-] & _ & [? Hs]). congruence.
  - assert (Hins : inserted_document msg = None).
    { unfold inserted_document. by rewrite Ht. }
    destruct (_docs s !! mongoId_of msg) as [d|] eqn:Hd.
    + right. right. split.
      { unfold protocol_violation, recognized_tags. rewrite Ht, Hd.
        intros [[? _]|[[_ ?]|[[? _]|Hout]]]; try done.
        apply Hout. repeat constructor. }
      split; [unfold insert_collision; rewrite Hins; by intros (d' & ? & _)|].
      run_update. rewrite Ht, Hd. simpl. rewrite Hd. done.
    + left. split.
      { right; left. by rewrite Hd. }
      run_update. rewrite Ht, Hd. simpl. eauto.
  - destruct (Hmembers (or_intror Ht)) as [fields Hf].
    assert (Hins : inserted_document msg = None).
    { unfold inserted_document. by rewrite Ht. }
    destruct (_docs s !! mongoId_of msg) as [d|] eqn:Hd.
    + right. right. split.
      { unfold protocol_violation, recognized_tags. rewrite Ht, Hd.
        intros [[? _]|[[? _]|[[_ ?]|Hout]]]; try done.
        apply Hout. repeat constructor. }
      split; [unfold insert_collision; rewrite Hins; by intros (d' & ? & _)|].
      run_update. rewrite Ht, Hd, Hf. simpl.
      destruct (0 <? _)%nat; [|done].
      destruct (modifier_has_keys _); [|done].
      simpl. rewrite Hd. done.
    + left. split.
      { right; right; left. by rewrite Hd. }
      run_update. rewrite Ht, Hd. simpl. eauto.
  - left. split.
    { by do 3 right. }
    destruct (unrecognized_tag_eqb _ Ht) as (E1 & E2 & E3 & E4).
    run_update. rewrite E1, E2, E3, E4. eauto.
Qed.

(** C1, as the code has it.  For a message with the members its tag
    requires, [update] throws an [Error] of its own if and only if the
    message is an add for an identifier in the store, a remove or a
    change for one that is not, or has a tag [update] does not know;
    the collection is then as it was on entry: nothing was called on
    it, nothing is tried again.  In every other case [update] returns,
    unless the document it hands to [insert] carries an [_id] the store
    already holds: then the store's [insert] fails, that failure is what
    [update] throws, and no document has changed. *)
Theorem update_throws_error_iff_violation (msg : message) (s : collection) :
  has_required_members msg →
  ((∃ text, (update msg s).2 = Throw (Error text)) ↔ protocol_violation msg s)
  ∧ (protocol_violation msg s →
       ∃ text, update msg s = (s, Throw (Error text)))
  ∧ (¬ protocol_violation msg s → insert_collision msg s →
       (update msg s).2 = Throw (ContractViolation "insert")
       ∧ _docs (update msg s).1 = _docs s)
  ∧ (¬ protocol_violation msg s → ¬ insert_collision msg s →
       (update msg s).2 = Return tt).
Proof.
  intros Hm.
  destruct (update_cases_members msg s Hm)
    as [[Hv [text Ht]]|[(Hnv & Hc & Ho & Hd)|(Hnv & Hnc & Ho)]].
  - split; [|split; [|split]]; try done.
    + split; [done|]. intros _. rewrite Ht. eauto.
    + eauto.
  - split; [|split; [|split]]; try done.
    split; [|done]. intros [text Ht]. congruence.
  - split; [|split; [|split]]; try done.
    split; [|done]. intros [text Ht]. congruence.
Qed.

(** X15.  When the document is in the store, a [changed] message with
    no field named [__proto__] that maps to [undefined] a field the
    document holds a value for (one [EJSON.equals] tells apart from
    [undefined]) builds a modifier with that field in [$unset], hands it
    to the collection's [update] and returns; the stored document then
    lacks the field, and every field the message does not name is as it
    was. *)
Theorem changed_unsets_present_field (msg : message) (s : collection)
    (doc fields : object) (key : string) (v : ejson) :
  m_msg msg = "changed" →
  _docs s !! mongoId_of msg = Some doc →
  m_fields msg = Some fields →
  fields !! "__proto__" = None →
  fields !! key = Some undefined →
  doc !! key = Some (Some v) →
  EJSON_equals (Some v) undefined = false →
  (∃ unset, dollar_unset (changed_modifier doc fields) = Some unset
            ∧ unset !! key = Some 1)
  ∧ update msg s =
      ({| _docs := <[mongoId_of msg :=
                      apply_modifier (changed_modifier doc fields) doc]> (_docs s);
          paused := paused s;
          calls := calls s ++
                   [call_update_modifier (mongoId_of msg)
                      (changed_modifier doc fields)] |},
       Return tt)
  ∧ apply_modifier (changed_modifier doc fields) doc !! key = None
  ∧ (∀ j, fields !! j = None →
       apply_modifier (changed_modifier doc fields) doc !! j = doc !! j).
Proof.
  intros Htag Hdoc Hfields Hproto Hkey Hcur Hne.
  assert (Hu : default ∅ (dollar_unset (changed_modifier doc fields)) !! key
               = Some 1).
  { rewrite changed_modifier_unset. destruct (decide _) as [|Hn]; [done|].
    exfalso. apply Hn. split; [eauto|]. unfold unsets_key, doc_get.
    rewrite (obj_get_Some _ _ _ Hkey), Hcur. simpl.
    split; [congruence|done]. }
  destruct (default_lookup_Some _ _ _ Hu) as [unset [Hunset Hlook]].
  split; [eauto|]. split; [|split].
  - run_update. rewrite Htag, Hdoc, Hfields. simpl.
    assert (Hlen : (0 <? length (Object_keys fields))%nat = true).
    { apply Nat.ltb_lt.
      assert (Hin : key ∈ Object_keys fields) by (apply Object_keys_spec; eauto).
      destruct (Object_keys fields); [by apply elem_of_nil in Hin|simpl; lia]. }
    rewrite Hlen.
    assert (Hkeys : modifier_has_keys (changed_modifier doc fields) = true).
    { unfold modifier_has_keys. rewrite Hunset. by destruct (dollar_set _). }
    rewrite Hkeys. simpl. rewrite Hdoc. done.
  - rewrite apply_modifier_lookup, Hu. done.
  - intros j Hj. rewrite apply_modifier_lookup.
    rewrite changed_modifier_unset, changed_modifier_set.
    destruct (decide _) as [[[w Hw] _]|_]; [congruence|].
    destruct (decide _) as [[[w Hw] _]|_]; [congruence|]. done.
Qed.

(** C10.  Whenever [update] throws, the documents of the collection are
    exactly those it had when [update] was called. *)
Theorem update_throw_keeps_docs (msg : message) (s : collection) (e : error) :
  (update msg s).2 = Throw e →
  _docs (update msg s).1 = _docs s.
Proof.
  run_update.
  repeat (case_match; simpl in *; try done).
Qed.

(** C4.  For an identifier that is not in the store, a [removed] message
    makes [update] throw, while a [replace] message with no document is
    a silent no-op: [update] returns and the collection is as it was.
    For an identifier that is in the store, a [replace] message with no
    document removes that document. *)
Theorem removed_throws_replace_none_idempotent (msg : message) (s : collection) :
  (m_msg msg = "removed" → _docs s !! mongoId_of msg = None →
     update msg s =
       (s, Throw (Error "Expected to find a document already present for removed")))
  ∧ (m_msg msg = "replace" → m_replace msg = None →
     _docs s !! mongoId_of msg = None →
     update msg s = (s, Return tt))
  ∧ (m_msg msg = "replace" → m_replace msg = None →
     is_Some (_docs s !! mongoId_of msg) →
     (update msg s).2 = Return tt
     ∧ _docs (update msg s).1 = delete (mongoId_of msg) (_docs s)
     ∧ calls (update msg s).1 = calls s ++ [call_remove (mongoId_of msg)]).
Proof.
  split; [|split].
  - intros Ht Hd. run_update. rewrite Ht, Hd. done.
  - intros Ht Hr Hd. run_update. rewrite Ht, Hr, Hd. done.
  - intros Ht Hr [d Hd]. run_update. rewrite Ht, Hr, Hd. simpl.
    rewrite Hd. done.
Qed.

(** C2, as the code has it.  The tag [update] dispatches to
    [_processReplace] is [replace].  For a message with that tag, a
    replacement document and an identifier that is not in the store,
    [update] does what the collection's [insert] does with the document:
    one [insert] call, and, the document's own [_id] being free, the
    document stored under it. *)
Theorem replace_tag_inserts (msg : message) (s : collection) (doc : object) :
  m_msg msg = "replace" →
  m_replace msg = Some doc →
  _docs s !! mongoId_of msg = None →
  update msg s = collection_insert doc s
  ∧ calls (update msg s).1 = calls s ++ [call_insert doc]
  ∧ (_docs s !! obj_get doc "_id" = None →
     (update msg s).2 = Return tt
     ∧ _docs (update msg s).1 = <[obj_get doc "_id" := doc]> (_docs s)).
Proof.
  intros Ht Hr Hd.
  assert (Hu : update msg s = collection_insert doc s).
  { run_update. rewrite Ht, Hr, Hd. done. }
  rewrite Hu. unfold collection_insert, bind, logged, set_docs, throw. simpl.
  split; [done|]. split.
  - by destruct (_docs s !! obj_get doc "_id").
  - intros Hfree. rewrite Hfree. done.
Qed.

(** C8, as the code has it.  A [changed] message with no [fields] makes
    [update] throw before anything is called on the collection: the
    change-on-missing [Error] when the identifier is not in the store,
    a [TypeError] from [Object.keys] when it is.  An [added] message
    with no [fields] is not rejected: for an identifier that is not in
    the store [update] inserts the document [{_id: id}] and returns. *)
Theorem missing_fields_outcome (msg : message) (s : collection) :
  m_fields msg = None →
  (m_msg msg = "changed" →
     ∃ e, update msg s = (s, Throw e)
          ∧ e = match _docs s !! mongoId_of msg with
                | None => Error "Expected to find a document to change"
                | Some _ => TypeError "Cannot convert undefined or null to object"
                end)
  ∧ (m_msg msg = "added" → _docs s !! mongoId_of msg = None →
     (update msg s).2 = Return tt
     ∧ _docs (update msg s).1 =
         <[mongoId_of msg := {[ "_id" := mongoId_of msg ]}]> (_docs s)).
Proof.
  intros Hf. split.
  - intros Ht. run_update. rewrite Ht. simpl.
    destruct (_docs s !! MongoID_idParse (m_id msg)); rewrite ?Hf; eauto.
  - intros Ht Hd. run_update. rewrite Ht, Hd, Hf. simpl.
    unfold added_document. simpl. rewrite (left_id_L ∅ (∪)).
    unfold obj_get. rewrite lookup_singleton_eq, Hd. done.
Qed.

End Reconciler.

(** ** The batch bracket *)

Section Batch.
Context {env : Collaborators}.

Lemma pauses_app (l1 l2 : list call) :
  pauses (l1 ++ l2) = (pauses l1 + pauses l2)%nat.
Proof. unfold pauses. by rewrite List.filter_app, length_app. Qed.

Lemma resumes_app (l1 l2 : list call) :
  resumes (l1 ++ l2) = (resumes l1 + resumes l2)%nat.
Proof. unfold resumes. by rewrite List.filter_app, length_app. Qed.

(** What [beginUpdate] leaves behind; it never throws. *)
Lemma beginUpdate_result (batchSize : Z) (reset : bool) (s : collection) :
  beginUpdate batchSize reset s =
    ({| _docs := if reset then ∅ else _docs s;
        paused := if (1 <? batchSize) || reset then true else paused s;
        calls := calls s
                 ++ (if (1 <? batchSize) || reset then [call_pauseObservers] else [])
                 ++ (if reset then [call_remove_all] else []) |},
     Return tt).
Proof.
  unfold beginUpdate, collection_pauseObservers, collection_remove_all,
    bind, logged, set_paused, set_docs, ret.
  destruct s as [d p c]. destruct (1 <? batchSize), reset; simpl;
    rewrite <- ?app_assoc, ?app_nil_r; done.
Qed.

(** What [endUpdate] leaves behind; it never throws. *)
Lemma endUpdate_result (s : collection) :
  endUpdate s =
    ({| _docs := _docs s; paused := false;
        calls := calls s ++ [call_resumeObservers] |}, Return tt).
Proof. done. Qed.

(** [update] neither suspends nor resumes, whether it returns or throws. *)
Lemma update_calls (msg : message) (s : collection) :
  paused (update msg s).1 = paused s
  ∧ ∃ new, calls (update msg s).1 = calls s ++ new
           ∧ pauses new = 0%nat ∧ resumes new = 0%nat.
Proof.
  unfold update, _processReplace, _processAdded, _processRemoved,
    _processChanged, collection_insert, collection_remove,
    collection_update_modifier, collection_update_replace,
    bind, logged, set_docs, throw, ret.
  repeat (case_match; simpl in *; try done);
    (split; [done|]);
    first [ by exists []; rewrite app_nil_r | by eexists [_] ].
Qed.

Lemma update_each_calls (msgs : list message) (s : collection) :
  paused (update_each msgs s).1 = paused s
  ∧ ∃ new, calls (update_each msgs s).1 = calls s ++ new
           ∧ pauses new = 0%nat ∧ resumes new = 0%nat.
Proof.
  revert s. induction msgs as [|msg rest IH]; intros s; cbn [update_each].
  - split; [done|]. exists []. by rewrite app_nil_r.
  - unfold bind.
    destruct (update_calls msg s) as [Hp (new1 & Hc & Hp1 & Hr1)].
    destruct (update msg s) as [s1 [[]|e]]; simpl in *.
    + destruct (IH s1) as [Hp' (new2 & Hc' & Hp2 & Hr2)].
      split; [congruence|]. exists (new1 ++ new2).
      rewrite Hc', Hc, pauses_app, resumes_app, Hp1, Hp2, Hr1, Hr2.
      by rewrite <- app_assoc.
    + split; [done|]. eauto.
Qed.

(** A run is [beginUpdate], then the messages, then [endUpdate] unless a
    message threw. *)
Lemma batch_result (batchSize : Z) (reset : bool) (msgs : list message)
    (s : collection) :
  batch batchSize reset msgs s =
    match update_each msgs (beginUpdate batchSize reset s).1 with
    | (s1, Return _) => endUpdate s1
    | (s1, Throw e) => (s1, Throw e)
    end.
Proof.
  unfold batch, bind. rewrite beginUpdate_result. simpl.
  by destruct (update_each msgs _) as [s1 [[]|e]].
Qed.

(** C3, as the code has it.  In a [beginUpdate] ... [endUpdate] run,
    the collection is suspended once if [batchSize > 1] or [reset], and
    not at all otherwise; [endUpdate] resumes it once in either case, so
    a run that reaches [endUpdate] has exactly one resume, also when
    nothing was suspended, and leaves notifications running.  A run cut
    short by an exception from [update] has no resume. *)
Theorem batch_pause_resume_counts (batchSize : Z) (reset : bool)
    (msgs : list message) (s : collection) :
  ∃ new,
    calls (batch batchSize reset msgs s).1 = calls s ++ new
    ∧ pauses new = (if (1 <? batchSize) || reset then 1%nat else 0%nat)
    ∧ resumes new = match (batch batchSize reset msgs s).2 with
                    | Return _ => 1%nat
                    | Throw _ => 0%nat
                    end
    ∧ match (batch batchSize reset msgs s).2 with
      | Return _ => paused (batch batchSize reset msgs s).1 = false
      | Throw _ => True
      end.
Proof.
  rewrite batch_result, beginUpdate_result. cbn [fst].
  set (s0 := {| _docs := _; paused := _; calls := _ |}).
  destruct (update_each_calls msgs s0) as [_ (new & Hc & Hp & Hr)].
  destruct (update_each msgs s0) as [s1 [[]|e]]; simpl in *.
  - eexists. rewrite Hc. subst s0. simpl. rewrite <- !app_assoc.
    split; [done|]. rewrite !pauses_app, !resumes_app, Hp, Hr.
    destruct (1 <? batchSize), reset; done.
  - eexists. rewrite Hc. subst s0. simpl. rewrite <- !app_assoc.
    split; [done|]. rewrite !pauses_app, !resumes_app, Hp, Hr.
    destruct (1 <? batchSize), reset; done.
Qed.

(** [beginUpdate] in the words of its two tests. *)
Lemma beginUpdate_spec (batchSize : Z) (reset : bool) (s : collection) :
  (beginUpdate batchSize reset s).2 = Return tt
  ∧ (∃ new, calls (beginUpdate batchSize reset s).1 = calls s ++ new
            ∧ (call_pauseObservers ∈ new ↔ 1 < batchSize ∨ reset = true)
            ∧ (call_remove_all ∈ new ↔ reset = true)
            ∧ resumes new = 0%nat)
  ∧ (paused (beginUpdate batchSize reset s).1 = true
       ↔ (1 < batchSize ∨ reset = true) ∨ paused s = true)
  ∧ _docs (beginUpdate batchSize reset s).1 = (if reset then ∅ else _docs s)
  ∧ (∀ msgs, batch batchSize reset msgs s =
       (update_each msgs >> endUpdate) (beginUpdate batchSize reset s).1).
Proof.
  split; [by rewrite beginUpdate_result|]. split; [|split; [|split]].
  - rewrite beginUpdate_result. eexists. split; [done|].
    destruct (Z.ltb_spec 1 batchSize), reset; simpl; set_unfold;
      repeat split; intuition (try lia; try done).
  - rewrite beginUpdate_result. simpl.
    destruct (Z.ltb_spec 1 batchSize), reset; simpl; intuition (try lia; try done).
  - by rewrite beginUpdate_result.
  - intros msgs. rewrite batch_result. unfold bind.
    by destruct (update_each msgs _) as [s1 [[]|e]].
Qed.

End Batch.

(** C5.  [beginUpdate(batchSize, reset)] suspends notifications if and
    only if [batchSize > 1] or [reset]; with [reset] it empties the
    store, and the messages of the batch run on the store it leaves.  A
    replica holding documents 1 and 2, given a reset batch whose single
    message is [added] for 3 with fields [{x: 1}], ends holding exactly
    that document. *)
Theorem beginUpdate_suspends_and_resets :
  (∀ (env : Collaborators) (batchSize : Z) (reset : bool) (s : collection),
     (beginUpdate batchSize reset s).2 = Return tt
     ∧ (∃ new, calls (beginUpdate batchSize reset s).1 = calls s ++ new
               ∧ (call_pauseObservers ∈ new ↔ 1 < batchSize ∨ reset = true)
               ∧ (call_remove_all ∈ new ↔ reset = true)
               ∧ resumes new = 0%nat)
     ∧ (paused (beginUpdate batchSize reset s).1 = true
          ↔ (1 < batchSize ∨ reset = true) ∨ paused s = true)
     ∧ _docs (beginUpdate batchSize reset s).1 = (if reset then ∅ else _docs s)
     ∧ (∀ msgs, batch batchSize reset msgs s =
          (update_each msgs >> endUpdate) (beginUpdate batchSize reset s).1))
  ∧ batch 1 true [added_3] store_12 =
      ({| _docs := {[ Some (str "3") := doc_3 ]};
          paused := false;
          calls := [call_pauseObservers; call_remove_all;
                    call_insert doc_3; call_resumeObservers] |},
       Return tt).
Proof.
  split.
  - intros env batchSize reset s. apply beginUpdate_spec.
  - vm_compute. reflexivity.
Qed.

(** ** Worked examples *)

(** The tag [replaced] of the spec's wire shape falls to [default]: the
    message is rejected as unknown and its document is not inserted. *)
Lemma replaced_tag_is_unknown :
  m_msg replaced_3 = "replaced"
  ∧ m_replace replaced_3 = Some doc_3
  ∧ _docs store_12 !! mongoId_of replaced_3 = None
  ∧ update replaced_3 store_12 =
      (store_12,
       Throw (Error "I don't know how to deal with this message: replaced"))
  ∧ _docs (update replaced_3 store_12).1 !! mongoId_of replaced_3 ≠ Some doc_3.
Proof.
  repeat split; try (vm_compute; reflexivity).
  vm_compute. discriminate.
Qed.

(** A batch of size 1 without reset does not suspend, and [endUpdate]
    still calls [resumeObservers]. *)
Lemma resume_without_suspend :
  batch 1 false [] empty_collection =
    ({| _docs := ∅; paused := false; calls := [call_resumeObservers] |},
     Return tt)
  ∧ pauses (calls (batch 1 false [] empty_collection).1) = 0%nat
  ∧ resumes (calls (batch 1 false [] empty_collection).1) = 1%nat.
Proof. repeat split; vm_compute; reflexivity. Qed.

(** An [added] message without [fields] is accepted: [update] returns,
    having inserted [{_id: '1'}]. *)
Lemma added_without_fields_returns :
  m_msg added_no_fields = "added"
  ∧ m_fields added_no_fields = None
  ∧ update added_no_fields empty_collection =
      ({| _docs := {[ Some (str "1") := {[ "_id" := Some (str "1") ]} ]};
          paused := false;
          calls := [call_insert {[ "_id" := Some (str "1") ]}] |},
       Return tt).
Proof. repeat split; vm_compute; reflexivity. Qed.

(** An add for an identifier the store lacks is no violation, and
    [update] returns. *)
Lemma update_throws_iff_violation_witness :
  well_formed added_3
  ∧ ((∃ e, (update added_3 store_12).2 = Throw e)
       ↔ protocol_violation added_3 store_12)
  ∧ (update added_3 store_12).2 = Return tt.
Proof.
  assert (Hwf : well_formed added_3).
  { split.
    - intros _. eexists. split; [reflexivity|]. vm_compute. reflexivity.
    - intros Ht. vm_compute in Ht. discriminate. }
  split; [exact Hwf|].
  destruct (update_throws_iff_violation added_3 store_12 Hwf) as (Hiff & _ & _).
  split; [exact Hiff|]. vm_compute. reflexivity.
Defined.

Lemma replace_tag_inserts_witness :
  m_msg replace_3 = "replace"
  ∧ m_replace replace_3 = Some doc_3
  ∧ _docs store_12 !! mongoId_of replace_3 = None
  ∧ update replace_3 store_12 = collection_insert doc_3 store_12
  ∧ _docs (update replace_3 store_12).1 !! Some (str "3") = Some doc_3.
Proof.
  assert (Ht : m_msg replace_3 = "replace") by reflexivity.
  assert (Hr : m_replace replace_3 = Some doc_3) by reflexivity.
  assert (Hd : _docs store_12 !! mongoId_of replace_3 = None)
    by (vm_compute; reflexivity).
  destruct (replace_tag_inserts replace_3 store_12 doc_3 Ht Hr Hd)
    as (Hu & _ & Hfree).
  split; [exact Ht|]. split; [exact Hr|]. split; [exact Hd|].
  split; [exact Hu|].
  destruct Hfree as [_ Hdocs]; [vm_compute; reflexivity|].
  rewrite Hdocs. apply lookup_insert_eq.
Defined.

Lemma removed_throws_replace_none_idempotent_witness :
  update removed_9 store_12 =
    (store_12,
     Throw (Error "Expected to find a document already present for removed"))
  ∧ update replace_none_9 store_12 = (store_12, Return tt)
  ∧ _docs (update replace_none_1 store_12).1
      = delete (Some (str "1")) (_docs store_12).
Proof.
  split; [|split].
  - apply (removed_throws_replace_none_idempotent removed_9 store_12);
      vm_compute; reflexivity.
  - apply (removed_throws_replace_none_idempotent replace_none_9 store_12);
      vm_compute; reflexivity.
  - apply (removed_throws_replace_none_idempotent replace_none_1 store_12);
      [reflexivity|reflexivity|].
    eexists. vm_compute. reflexivity.
Defined.

Lemma changed_equal_fields_identity_witness :
  update changed_same_a store_ab = (store_ab, Return tt).
Proof.
  apply (changed_equal_fields_identity changed_same_a store_ab
           (list_to_map [("_id", Some (str "1")); ("a", Some (num 5));
                         ("b", Some (num 7))])
           {[ "a" := Some (num 5) ]}).
  - reflexivity.
  - vm_compute. reflexivity.
  - reflexivity.
  - intros k v Hk. apply lookup_singleton_Some in Hk as [<- <-].
    vm_compute. reflexivity.
Defined.

(** The example of spec §8: [{_id: 1, a: 5, b: 7}] and
    [{b: undefined}] give [{_id: 1, a: 5}]. *)
Lemma changed_unsets_present_field_witness :
  update changed_unset_b store_ab =
    ({| _docs := {[ Some (str "1") :=
                     list_to_map [("_id", Some (str "1")); ("a", Some (num 5))] ]};
        paused := false;
        calls := [call_update_modifier (Some (str "1"))
                    {| dollar_set := None;
                       dollar_unset := Some {[ "b" := 1 ]} |}] |},
     Return tt).
Proof.
  destruct (changed_unsets_present_field changed_unset_b store_ab
              (list_to_map [("_id", Some (str "1")); ("a", Some (num 5));
                            ("b", Some (num 7))])
              {[ "b" := None ]} "b" (num 7))
    as (_ & Hu & _); [vm_compute; reflexivity ..|].
  rewrite Hu. vm_compute. reflexivity.
Defined.

Lemma missing_fields_outcome_witness :
  update changed_no_fields store_ab =
    (store_ab, Throw (TypeError "Cannot convert undefined or null to object"))
  ∧ update changed_no_fields empty_collection =
    (empty_collection, Throw (Error "Expected to find a document to change"))
  ∧ (update added_no_fields empty_collection).2 = Return tt.
Proof.
  split; [|split].
  - destruct (missing_fields_outcome changed_no_fields store_ab eq_refl)
      as [Hc _].
    destruct (Hc eq_refl) as (e & Hu & He). rewrite Hu, He.
    vm_compute. reflexivity.
  - destruct (missing_fields_outcome changed_no_fields empty_collection eq_refl)
      as [Hc _].
    destruct (Hc eq_refl) as (e & Hu & He). rewrite Hu, He.
    vm_compute. reflexivity.
  - destruct (missing_fields_outcome added_no_fields empty_collection eq_refl)
      as [_ Ha].
    apply Ha; vm_compute; reflexivity.
Defined.

Lemma update_throw_keeps_docs_witness :
  (update removed_9 store_12).2 =
    Throw (Error "Expected to find a document already present for removed")
  ∧ _docs (update removed_9 store_12).1 = _docs store_12.
Proof.
  assert (Ht : (update removed_9 store_12).2 =
                 Throw (Error "Expected to find a document already present for removed"))
    by (vm_compute; reflexivity).
  split; [exact Ht|].
  exact (update_throw_keeps_docs removed_9 store_12 _ Ht).
Defined.

(** The diff of [{_id: 1, a: 5, b: 7}] against [{a: 6, b: undefined}]
    sets [a] and unsets [b]. *)
Lemma changed_modifier_disjoint_minimal_witness :
  dom (default ∅ (dollar_set
         (changed_modifier (obj_of_store store_ab) (fields_of changed_a_b))))
  ## dom (default ∅ (dollar_unset
         (changed_modifier (obj_of_store store_ab) (fields_of changed_a_b)))).
Proof.
  apply (changed_modifier_disjoint_minimal
           (obj_of_store store_ab) (fields_of changed_a_b)).
  vm_compute. reflexivity.
Defined.

(** ** Further properties of the reconciler *)

Section Reconciler_more.
Context {env : Collaborators}.

Local Ltac unfold_update :=
  unfold update, _processReplace, _processAdded, _processRemoved,
    _processChanged, collection_insert, collection_remove,
    collection_update_modifier, collection_update_replace,
    bind, logged, set_docs, throw, ret, mongoId_of in *.

(** [{_id: mongoId, ...fields}] when [fields] has no [_id] of its own. *)
Lemma added_document_no_id (mongoId : jsval) (fields : object) :
  fields !! "_id" = None →
  added_document mongoId (Some fields) = <["_id" := mongoId]> fields.
Proof.
  intros Hid. unfold added_document. simpl.
  by rewrite <- insert_union_singleton_r.
Qed.

(** X1.  An [added] message for an identifier the store lacks, whose
    fields have no [_id] key, makes [update] return after one [insert]
    call: the store then holds [{_id: id, ...fields}] under that
    identifier, and looking a field up in it gives the message's value. *)
Theorem added_inserts_document (msg : message) (s : collection)
    (fields : object) :
  m_msg msg = "added" →
  _docs s !! mongoId_of msg = None →
  m_fields msg = Some fields →
  fields !! "_id" = None →
  update msg s =
    ({| _docs := <[mongoId_of msg := <["_id" := mongoId_of msg]> fields]> (_docs s);
        paused := paused s;
        calls := calls s ++ [call_insert (<["_id" := mongoId_of msg]> fields)] |},
     Return tt)
  ∧ (∃ d, _docs (update msg s).1 !! mongoId_of msg = Some d
          ∧ d !! "_id" = Some (mongoId_of msg)
          ∧ ∀ k, k ≠ "_id" → d !! k = fields !! k).
Proof.
  intros Ht Hd Hf Hid.
  assert (Hu : update msg s =
    ({| _docs := <[mongoId_of msg := <["_id" := mongoId_of msg]> fields]> (_docs s);
        paused := paused s;
        calls := calls s ++ [call_insert (<["_id" := mongoId_of msg]> fields)] |},
     Return tt)).
  { unfold_update. rewrite Ht, Hd, Hf. simpl.
    rewrite added_document_no_id by done.
    unfold obj_get. rewrite lookup_insert_eq, Hd. done. }
  split; [exact Hu|]. rewrite Hu. simpl. eexists. split; [apply lookup_insert_eq|].
  split; [apply lookup_insert_eq|]. intros k Hk. by rewrite lookup_insert_ne.
Qed.

(** [{_id: mongoId, ...fields}] carries [mongoId] as its [_id] when
    [fields], if there are any, have no [_id] of their own. *)
Lemma added_document_id (mongoId : jsval) (fields : option object) :
  (∀ f, fields = Some f → f !! "_id" = None) →
  obj_get (added_document mongoId fields) "_id" = mongoId.
Proof.
  intros Hid. unfold obj_get, added_document.
  destruct fields as [f|]; simpl.
  - rewrite lookup_union_r by (by apply Hid). by rewrite lookup_singleton_eq.
  - rewrite lookup_union_r by apply lookup_empty.
    by rewrite lookup_singleton_eq.
Qed.

(** X2.  [added] followed by [removed] for the same identifier, on a
    store that lacked it, the fields of the [added] message (if it has
    any) carrying no [_id] key: both return and leave the documents as
    they were. *)
Theorem added_then_removed_restores (added removed : message) (s : collection) :
  m_msg added = "added" →
  m_msg removed = "removed" →
  m_id removed = m_id added →
  _docs s !! mongoId_of added = None →
  (∀ fields, m_fields added = Some fields → fields !! "_id" = None) →
  (update added s).2 = Return tt
  ∧ (update removed (update added s).1).2 = Return tt
  ∧ _docs (update removed (update added s).1).1 = _docs s.
Proof.
  intros Ha Hr Hsame Hd Hid.
  pose proof (added_document_id (mongoId_of added) (m_fields added) Hid) as Hget.
  assert (Hu : update added s =
    ({| _docs := <[mongoId_of added :=
                    added_document (mongoId_of added) (m_fields added)]> (_docs s);
        paused := paused s;
        calls := calls s ++
                 [call_insert (added_document (mongoId_of added) (m_fields added))] |},
     Return tt)).
  { unfold_update. rewrite Ha, Hd. simpl. rewrite Hget, Hd. done. }
  rewrite Hu. simpl. split; [done|].
  unfold_update. rewrite Hr, Hsame. simpl. rewrite lookup_insert_eq. simpl.
  rewrite lookup_insert_eq. simpl. split; [done|].
  by apply delete_insert_id.
Qed.

(** X3.  In [{_id: mongoId, ...msg.fields}] a spread key overrides the
    earlier one: when the fields of an [added] message carry an [_id],
    the document handed to [insert] carries that value, not the
    message's identifier.  With the fields' [_id] free and different
    from the message's identifier, [update] returns with the document
    stored under the fields' [_id], and the message's identifier is as
    absent as before. *)
Theorem added_fields_id_overrides (msg : message) (s : collection)
    (fields : object) (v : jsval) :
  m_msg msg = "added" →
  _docs s !! mongoId_of msg = None →
  m_fields msg = Some fields →
  fields !! "_id" = Some v →
  calls (update msg s).1 = calls s ++ [call_insert fields]
  ∧ (_docs s !! v = None → v ≠ mongoId_of msg →
     (update msg s).2 = Return tt
     ∧ _docs (update msg s).1 !! v = Some fields
     ∧ _docs (update msg s).1 !! mongoId_of msg = None)
  ∧ (is_Some (_docs s !! v) →
     update msg s =
       ({| _docs := _docs s; paused := paused s;
           calls := calls s ++ [call_insert fields] |},
        Throw (ContractViolation "insert"))).
Proof.
  intros Ht Hd Hf Hid.
  assert (Hdoc : added_document (MongoID_idParse (m_id msg)) (Some fields) = fields).
  { unfold added_document. simpl. apply map_eq. intros k.
    destruct (fields !! k) as [w|] eqn:Hk.
    - by apply lookup_union_Some_l.
    - rewrite lookup_union_r by done. apply lookup_singleton_ne. congruence. }
  assert (Hget : obj_get fields "_id" = v) by (unfold obj_get; by rewrite Hid).
  unfold_update. rewrite Ht, Hd, Hf. simpl. rewrite Hdoc, Hget.
  split; [by destruct (_docs s !! v)|]. split.
  - intros Hfree Hne. rewrite Hfree. simpl. split; [done|].
    split; [apply lookup_insert_eq|]. by rewrite lookup_insert_ne.
  - intros [d Hv]. rewrite Hv. done.
Qed.

(** Documents under other identifiers are out of reach of a
    well-formed message. *)
Lemma update_other_ids (msg : message) (s : collection) (id : jsval) :
  well_formed msg →
  id ≠ mongoId_of msg →
  _docs (update msg s).1 !! id = _docs s !! id.
Proof.
  intros [Hfields Hreplace] Hne.
  destruct (tag_cases (m_msg msg)) as [Ht|[Ht|[Ht|[Ht|Ht]]]].
  - specialize (Hreplace Ht). unfold_update. rewrite Ht. simpl.
    destruct (m_replace msg) as [replace|];
      destruct (_docs s !! MongoID_idParse (m_id msg)) as [d|] eqn:Hd;
      simpl; rewrite ?Hd; simpl; try done.
    + by rewrite lookup_insert_ne.
    + rewrite (Hreplace replace eq_refl), Hd. simpl. by rewrite lookup_insert_ne.
    + by rewrite lookup_delete_ne.
  - destruct (Hfields (or_introl Ht)) as [fields [Hf Hid]].
    unfold_update. rewrite Ht, Hf. simpl.
    destruct (_docs s !! MongoID_idParse (m_id msg)) as [d|] eqn:Hd; [done|].
    simpl. rewrite added_document_no_id by done.
    unfold obj_get. rewrite lookup_insert_eq, Hd. simpl.
    by rewrite lookup_insert_ne.
  - unfold_update. rewrite Ht. simpl.
    destruct (_docs s !! MongoID_idParse (m_id msg)) as [d|] eqn:Hd; [|done].
    simpl. rewrite Hd. simpl. by rewrite lookup_delete_ne.
  - destruct (Hfields (or_intror Ht)) as [fields [Hf Hid]].
    unfold_update. rewrite Ht, Hf. simpl.
    destruct (_docs s !! MongoID_idParse (m_id msg)) as [d|] eqn:Hd; [|done].
    destruct (0 <? _)%nat; [|done].
    destruct (modifier_has_keys _); [|done].
    simpl. rewrite Hd. simpl. by rewrite lookup_insert_ne.
  - destruct (unrecognized_tag_eqb _ Ht) as (E1 & E2 & E3 & E4).
    unfold_update. rewrite E1, E2, E3, E4. done.
Qed.

(** X4.  A well-formed message changes no document but its own: every
    other identifier maps to what it mapped to before [update], whether
    [update] returns or throws. *)
Theorem update_touches_own_document_only (msg : message) (s : collection)
    (id : jsval) :
  well_formed msg →
  id ≠ mongoId_of msg →
  _docs (update msg s).1 !! id = _docs s !! id.
Proof. apply update_other_ids. Qed.

(** X5.  Whatever the message, [update] calls the collection at most
    once, and the call is never [pauseObservers], [resumeObservers] or
    [remove({})]; the suspension flag is as it was. *)
Theorem update_issues_at_most_one_call (msg : message) (s : collection) :
  paused (update msg s).1 = paused s
  ∧ ∃ new, calls (update msg s).1 = calls s ++ new
           ∧ (length new ≤ 1)%nat
           ∧ (call_pauseObservers ∉ new)
           ∧ (call_resumeObservers ∉ new)
           ∧ (call_remove_all ∉ new).
Proof.
  unfold_update.
  repeat (case_match; simpl in *; try done);
    (split; [done|]);
    first [ exists []; rewrite app_nil_r; repeat split;
            [simpl; lia|apply not_elem_of_nil..]
          | eexists [_]; repeat split;
            [simpl; lia|
             intros Hin; apply list_elem_of_singleton in Hin; discriminate..] ].
Qed.

(** X6.  For a message with no field named [__proto__], the modifier
    misses no field: a field the message proposes with a value
    [EJSON.equals] tells apart from what reading [doc[key]] gives is in
    [$set] with that value when the value is defined, and in [$unset]
    when it is [undefined]. *)
Theorem changed_modifier_complete (doc fields : object) (k : string)
    (v : jsval) :
  fields !! "__proto__" = None →
  fields !! k = Some v →
  EJSON_equals_read (doc_get doc k) v = false →
  match v with
  | Some _ => default ∅ (dollar_set (changed_modifier doc fields)) !! k = Some v
  | None => default ∅ (dollar_unset (changed_modifier doc fields)) !! k = Some 1
  end
  ∧ modifier_has_keys (changed_modifier doc fields) = true.
Proof.
  intros Hproto Hk Hne.
  assert (Hkp : k ≠ "__proto__") by congruence.
  assert (Hv : match v with
    | Some _ => default ∅ (dollar_set (changed_modifier doc fields)) !! k = Some v
    | None => default ∅ (dollar_unset (changed_modifier doc fields)) !! k = Some 1
    end).
  { destruct v as [w|].
    - rewrite changed_modifier_set. destruct (decide _) as [_|Hn].
      + by rewrite (obj_get_Some _ _ _ Hk).
      + exfalso. apply Hn. split; [eauto|]. unfold sets_key.
        by rewrite (obj_get_Some _ _ _ Hk).
    - rewrite changed_modifier_unset. destruct (decide _) as [_|Hn]; [done|].
      exfalso. apply Hn. split; [eauto|]. unfold unsets_key.
      by rewrite (obj_get_Some _ _ _ Hk). }
  split; [exact Hv|]. unfold modifier_has_keys.
  destruct v as [w|]; apply default_lookup_Some in Hv as [m [-> _]];
    [done|by destruct (dollar_set _)].
Qed.

(** The patched document, field by field; the name [__proto__] never
    enters the patch. *)
Lemma apply_changed_modifier_lookup (doc fields : object) (k : string) :
  (k = "__proto__" → fields !! k = None) →
  apply_modifier (changed_modifier doc fields) doc !! k
  = changed_field doc fields k.
Proof.
  intros Hproto.
  rewrite apply_modifier_lookup, changed_modifier_unset, changed_modifier_set.
  unfold changed_field, unsets_key, sets_key.
  destruct (fields !! k) as [v|] eqn:Hk.
  - assert (Hkp : k ≠ "__proto__") by (intros Heq; by specialize (Hproto Heq)).
    rewrite (obj_get_Some _ _ _ Hk).
    destruct (EJSON_equals_read (doc_get doc k) v) eqn:He; destruct v as [w|];
      repeat match goal with
             | |- context [decide ?P] =>
                 destruct (decide P) as [(_ & _ & ? & ?)|?]
             end;
      simpl in *; try done; exfalso; eauto.
  - repeat match goal with
           | |- context [decide ?P] =>
               destruct (decide P) as [([? ?] & _)|?]
           end; done.
Qed.

(** A modifier without keys changes nothing. *)
Lemma apply_modifier_no_keys (m : modifier) (doc : object) :
  modifier_has_keys m = false → apply_modifier m doc = doc.
Proof.
  unfold modifier_has_keys. intros Hm. apply map_eq. intros k.
  rewrite apply_modifier_lookup.
  destruct (dollar_set m), (dollar_unset m); simpl in *;
    by rewrite ?lookup_empty.
Qed.

(** What [update] does with a [changed] message for a document the
    store holds: the documents end as if the patch had been applied,
    also when nothing was called. *)
Lemma update_changed_docs (msg : message) (s : collection)
    (doc fields : object) :
  m_msg msg = "changed" →
  _docs s !! mongoId_of msg = Some doc →
  m_fields msg = Some fields →
  (update msg s).2 = Return tt
  ∧ paused (update msg s).1 = paused s
  ∧ _docs (update msg s).1 =
      <[mongoId_of msg := apply_modifier (changed_modifier doc fields) doc]>
        (_docs s).
Proof.
  intros Ht Hd Hf. unfold_update. rewrite Ht, Hd, Hf. simpl.
  destruct (0 <? length (Object_keys fields))%nat eqn:Hlen.
  - destruct (modifier_has_keys (changed_modifier doc fields)) eqn:Hm.
    + simpl. rewrite Hd. done.
    + simpl. rewrite apply_modifier_no_keys by done.
      by rewrite insert_id.
  - simpl. assert (Hnil : Object_keys fields = []).
    { apply Nat.ltb_ge in Hlen. destruct (Object_keys fields); [done|].
      simpl in Hlen. lia. }
    unfold changed_modifier. rewrite Hnil. simpl.
    rewrite apply_modifier_no_keys by done. by rewrite insert_id.
Qed.

(** X7.  After a [changed] message with no field named [__proto__], for
    a document the store holds, [update] has returned and the document
    reads, field by field: as before when the message does not name the
    field or proposes a value [EJSON.equals] finds equal to what reading
    [doc[key]] gave; the proposed value when it differs and is defined;
    nothing when it differs and is [undefined]. *)
Theorem changed_document_lookup (msg : message) (s : collection)
    (doc fields : object) :
  m_msg msg = "changed" →
  _docs s !! mongoId_of msg = Some doc →
  m_fields msg = Some fields →
  fields !! "__proto__" = None →
  (update msg s).2 = Return tt
  ∧ ∃ doc', _docs (update msg s).1 !! mongoId_of msg = Some doc'
            ∧ ∀ k, doc' !! k = changed_field doc fields k.
Proof.
  intros Ht Hd Hf Hproto.
  destruct (update_changed_docs msg s doc fields Ht Hd Hf) as (Hr & _ & Hdocs).
  split; [exact Hr|]. rewrite Hdocs. eexists. split; [apply lookup_insert_eq|].
  intros k. apply apply_changed_modifier_lookup. by intros ->.
Qed.

(** X8.  In a message with no field named [__proto__], asking to unset
    a field the document does not have, and whose name is not one
    [Object.prototype] lends to every object: the test
    [EJSON.equals(doc[key], value)] compares [undefined] with
    [undefined] before the [typeof] test is reached, so with a
    primitive that finds those equal the field goes into neither
    [$unset] nor [$set]. *)
Theorem changed_unset_absent_skipped (doc fields : object) (key : string) :
  EJSON_equals undefined undefined = true →
  fields !! "__proto__" = None →
  key ∉ Object_prototype_names →
  doc !! key = None →
  fields !! key = Some undefined →
  default ∅ (dollar_unset (changed_modifier doc fields)) !! key = None
  ∧ default ∅ (dollar_set (changed_modifier doc fields)) !! key = None.
Proof.
  intros Hrefl _ Hname Hdoc Hkey.
  assert (Hd : doc_get doc key = Own_value undefined).
  { unfold doc_get. rewrite Hdoc. by rewrite bool_decide_eq_false_2. }
  rewrite changed_modifier_unset, changed_modifier_set.
  unfold unsets_key, sets_key. rewrite Hd, (obj_get_Some _ _ _ Hkey). simpl.
  split; destruct (decide _) as [(_ & _ & ? & _)|_]; congruence.
Qed.

(** A [changed] message whose values [EJSON.equals] all finds equal to
    what reading [doc[key]] gives leaves the collection as it is. *)
Lemma update_changed_equal (msg : message) (s : collection)
    (doc fields : object) :
  m_msg msg = "changed" →
  _docs s !! mongoId_of msg = Some doc →
  m_fields msg = Some fields →
  (∀ k v, fields !! k = Some v →
     EJSON_equals_read (doc_get doc k) v = true) →
  update msg s = (s, Return tt).
Proof.
  intros Ht Hd Hf Hall.
  assert (Hm : changed_modifier doc fields = empty_modifier).
  { apply foldl_forEach_key_equal. intros k Hk.
    apply Object_keys_spec in Hk as [v Hv].
    rewrite (obj_get_Some _ _ _ Hv). by apply Hall. }
  unfold_update. rewrite Ht, Hd, Hf, Hm. simpl.
  by destruct (0 <? _)%nat.
Qed.

(** X9.  With a deep equality that finds every value equal to itself,
    and a message none of whose fields bears a name of
    [Object.prototype], applying the same [changed] message a second
    time changes nothing and calls nothing: the first application has
    brought every named field to the proposed value. *)
Theorem changed_twice_is_noop (msg : message) (s : collection)
    (doc fields : object) :
  (∀ v, EJSON_equals v v = true) →
  (∀ k, k ∈ Object_prototype_names → fields !! k = None) →
  m_msg msg = "changed" →
  _docs s !! mongoId_of msg = Some doc →
  m_fields msg = Some fields →
  update msg (update msg s).1 = ((update msg s).1, Return tt).
Proof.
  intros Hrefl Hnames Ht Hd Hf.
  destruct (update_changed_docs msg s doc fields Ht Hd Hf) as (_ & _ & Hdocs).
  apply (update_changed_equal msg _
           (apply_modifier (changed_modifier doc fields) doc) fields Ht);
    [rewrite Hdocs; apply lookup_insert_eq|exact Hf|].
  intros k v Hk.
  assert (Hname : k ∉ Object_prototype_names).
  { intros Hin. specialize (Hnames k Hin). congruence. }
  unfold doc_get at 1.
  rewrite apply_changed_modifier_lookup by (intros ->; apply Hnames;
    unfold Object_prototype_names; set_solver).
  unfold changed_field. rewrite Hk.
  destruct (EJSON_equals_read (doc_get doc k) v) eqn:He.
  - revert He. unfold doc_get. by destruct (doc !! k).
  - destruct v as [w|]; simpl; [apply Hrefl|].
    rewrite bool_decide_eq_false_2 by done. apply Hrefl.
Qed.

(** X10.  The guards of [update] come before any look at the message's
    members: an [added] for an identifier in the store, a [changed] for
    one that is not, and a message with an unknown tag throw their
    [Error] whatever [fields] and [replace] hold, with the collection
    untouched; the text of the last one ends with the tag. *)
Theorem protocol_errors_precede_members (msg : message) (s : collection) :
  (m_msg msg = "added" → is_Some (_docs s !! mongoId_of msg) →
     update msg s =
       (s, Throw (Error "Expected not to find a document already present for an add")))
  ∧ (m_msg msg = "changed" → _docs s !! mongoId_of msg = None →
     update msg s = (s, Throw (Error "Expected to find a document to change")))
  ∧ (m_msg msg ∉ recognized_tags →
     update msg s =
       (s, Throw (Error ("I don't know how to deal with this message: "
                         +:+ m_msg msg)))).
Proof.
  split; [|split].
  - intros Ht [d Hd]. unfold_update. rewrite Ht, Hd. done.
  - intros Ht Hd. unfold_update. rewrite Ht, Hd. done.
  - intros Ht. destruct (unrecognized_tag_eqb _ Ht) as (E1 & E2 & E3 & E4).
    unfold_update. rewrite E1, E2, E3, E4. done.
Qed.


(** [update] keeps every document under the identifier it carries. *)
Lemma update_keeps_ids_consistent (msg : message) (s : collection) :
  well_formed msg →
  ids_consistent s →
  ids_consistent (update msg s).1.
Proof.
  intros Hwf Hinv id d Hlook.
  destruct (decide (id = mongoId_of msg)) as [->|Hne];
    [|rewrite update_other_ids in Hlook by done; by apply (Hinv id)].
  destruct Hwf as [Hfields Hreplace].
  destruct (tag_cases (m_msg msg)) as [Ht|[Ht|[Ht|[Ht|Ht]]]].
  - specialize (Hreplace Ht). revert Hlook. unfold_update. rewrite Ht. simpl.
    destruct (m_replace msg) as [replace|];
      destruct (_docs s !! MongoID_idParse (m_id msg)) as [d0|] eqn:Hd;
      simpl; rewrite ?Hd; simpl.
    + rewrite lookup_insert_eq. intros [= <-].
      unfold obj_get. by rewrite lookup_insert_eq.
    + rewrite (Hreplace replace eq_refl), Hd. simpl.
      rewrite lookup_insert_eq. intros [= <-]. by apply Hreplace.
    + by rewrite lookup_delete_eq.
    + done.
  - destruct (Hfields (or_introl Ht)) as [fields [Hf Hid]].
    revert Hlook. unfold_update. rewrite Ht, Hf. simpl.
    destruct (_docs s !! MongoID_idParse (m_id msg)) as [d0|] eqn:Hd.
    + simpl. rewrite Hd. intros [= <-]. by apply (Hinv _ _ Hd).
    + simpl. rewrite added_document_no_id by done.
      unfold obj_get at 1 2. rewrite lookup_insert_eq, Hd. simpl.
      rewrite lookup_insert_eq. intros [= <-].
      unfold obj_get. by rewrite lookup_insert_eq.
  - revert Hlook. unfold_update. rewrite Ht. simpl.
    destruct (_docs s !! MongoID_idParse (m_id msg)) as [d0|] eqn:Hd.
    + simpl. rewrite Hd. simpl. by rewrite lookup_delete_eq.
    + simpl. by rewrite Hd.
  - destruct (Hfields (or_intror Ht)) as [fields [Hf Hid]].
    destruct (_docs s !! mongoId_of msg) as [d0|] eqn:Hd.
    + destruct (update_changed_docs msg s d0 fields Ht Hd Hf) as (_ & _ & Hdocs).
      rewrite Hdocs, lookup_insert_eq in Hlook. injection Hlook as <-.
      unfold obj_get. rewrite apply_changed_modifier_lookup by done.
      unfold changed_field. rewrite Hid. by apply (Hinv _ _ Hd).
    + revert Hlook. unfold_update. rewrite Ht, Hd. simpl. by rewrite Hd.
  - destruct (unrecognized_tag_eqb _ Ht) as (E1 & E2 & E3 & E4).
    revert Hlook. unfold_update. rewrite E1, E2, E3, E4. simpl.
    intros Hlook. by apply (Hinv _ _ Hlook).
Qed.

(** What [update] does to the documents, and whether it throws, depends
    on the documents alone, not on the flag or the log. *)
Lemma update_docs_only (msg : message) (s s' : collection) :
  _docs s = _docs s' →
  _docs (update msg s).1 = _docs (update msg s').1
  ∧ (update msg s).2 = (update msg s').2.
Proof.
  destruct s as [d p c], s' as [d' p' c']. simpl. intros <-.
  unfold_update. simpl.
  repeat (case_match; simpl in *; try done).
Qed.

End Reconciler_more.

(** ** Further properties of a batch *)

Section Batch_more.
Context {env : Collaborators}.

Lemma update_each_keeps_ids_consistent (msgs : list message) (s : collection) :
  Forall well_formed msgs →
  ids_consistent s →
  ids_consistent (update_each msgs s).1.
Proof.
  intros Hall. revert s. induction Hall as [|msg rest Hwf _ IH]; intros s Hinv.
  - exact Hinv.
  - cbn [update_each]. unfold bind.
    pose proof (update_keeps_ids_consistent msg s Hwf Hinv) as H1.
    destruct (update msg s) as [s1 [[]|e]]; simpl in *; [by apply IH|done].
Qed.

(** X11.  Through a whole batch of well-formed messages, with or without
    reset, finished or cut short by an exception, every document of the
    store stays under the identifier it carries as [_id]. *)
Theorem batch_keeps_ids_consistent (batchSize : Z) (reset : bool)
    (msgs : list message) (s : collection) :
  Forall well_formed msgs →
  ids_consistent s →
  ids_consistent (batch batchSize reset msgs s).1.
Proof.
  intros Hall Hinv. rewrite batch_result, beginUpdate_result. cbn [fst].
  set (s0 := {| _docs := _; paused := _; calls := _ |}).
  assert (H0 : ids_consistent s0).
  { intros id d. subst s0. simpl. destruct reset; [by rewrite lookup_empty|].
    apply Hinv. }
  pose proof (update_each_keeps_ids_consistent msgs s0 Hall H0) as H1.
  destruct (update_each msgs s0) as [s1 [[]|e]]; simpl in *; done.
Qed.

Lemma update_each_docs_only (msgs : list message) (s s' : collection) :
  _docs s = _docs s' →
  _docs (update_each msgs s).1 = _docs (update_each msgs s').1
  ∧ (update_each msgs s).2 = (update_each msgs s').2.
Proof.
  revert s s'. induction msgs as [|msg rest IH]; intros s s' Hd; [done|].
  cbn [update_each]. unfold bind.
  destruct (update_docs_only msg s s' Hd) as [Hd1 Ho1].
  destruct (update msg s) as [s1 o1], (update msg s') as [s1' o1'].
  simpl in *. subst o1'. destruct o1 as [[]|e]; [by apply IH|done].
Qed.

(** X12.  A batch opened with [reset] forgets what the store held: from
    any two collections the same messages give the same documents and
    the same outcome. *)
Theorem reset_batch_forgets_prior_documents (batchSize : Z)
    (msgs : list message) (s s' : collection) :
  _docs (batch batchSize true msgs s).1 = _docs (batch batchSize true msgs s').1
  ∧ (batch batchSize true msgs s).2 = (batch batchSize true msgs s').2.
Proof.
  rewrite !batch_result, !beginUpdate_result. cbn [fst].
  set (s0 := {| _docs := ∅; paused := _; calls := calls s ++ _ |}).
  set (s0' := {| _docs := ∅; paused := _; calls := calls s' ++ _ |}).
  destruct (update_each_docs_only msgs s0 s0' eq_refl) as [Hd Ho].
  destruct (update_each msgs s0) as [s1 o1], (update_each msgs s0') as [s1' o1'].
  simpl in *. subst o1'. by destruct o1 as [[]|e].
Qed.

(** X13.  [endUpdate] is the only place that resumes, and an exception
    from [update] skips it: a batch that suspended notifications and
    then threw leaves the collection suspended. *)
Theorem batch_throw_stays_paused (batchSize : Z) (reset : bool)
    (msgs : list message) (s : collection) (e : error) :
  (batch batchSize reset msgs s).2 = Throw e →
  1 < batchSize ∨ reset = true →
  paused (batch batchSize reset msgs s).1 = true.
Proof.
  rewrite batch_result, beginUpdate_result. cbn [fst].
  set (s0 := {| _docs := _; paused := _; calls := _ |}).
  destruct (update_each_calls msgs s0) as [Hp _].
  destruct (update_each msgs s0) as [s1 [[]|e1]]; simpl in *; [done|].
  intros _ Hcond. rewrite Hp. subst s0. simpl.
  destruct (Z.ltb_spec 1 batchSize), reset; simpl; try done.
  destruct Hcond; [lia|done].
Qed.

End Batch_more.

(** ** Worked examples, continued *)

Lemma added_inserts_document_witness :
  update added_3 store_12 =
    ({| _docs := <[Some (str "3") := doc_3]> (_docs store_12);
        paused := false;
        calls := [call_insert doc_3] |},
     Return tt).
Proof.
  destruct (added_inserts_document added_3 store_12 {[ "x" := Some (num 1) ]})
    as [Hu _]; [vm_compute; reflexivity ..|].
  rewrite Hu. vm_compute. reflexivity.
Defined.

Lemma added_then_removed_restores_witness :
  _docs (update removed_3 (update added_3 store_12).1).1 = _docs store_12.
Proof.
  apply (added_then_removed_restores added_3 removed_3 store_12);
    [reflexivity|reflexivity|reflexivity|vm_compute; reflexivity|].
  intros fields [= <-]. vm_compute. reflexivity.
Defined.

(** [{msg: 'added', id: '3', fields: {_id: '4', x: 1}}] stores its
    document under ['4'] and leaves ['3'] absent. *)
Lemma added_fields_id_overrides_witness :
  (update added_3_as_4 store_12).2 = Return tt
  ∧ is_Some (_docs (update added_3_as_4 store_12).1 !! Some (str "4"))
  ∧ _docs (update added_3_as_4 store_12).1 !! Some (str "3") = None.
Proof.
  destruct (added_fields_id_overrides added_3_as_4 store_12
              (list_to_map [("_id", Some (str "4")); ("x", Some (num 1))])
              (Some (str "4")))
    as (_ & Hfree & _); [vm_compute; reflexivity ..|].
  destruct Hfree as (Hr & H4 & H3);
    [vm_compute; reflexivity|vm_compute; discriminate|].
  split; [exact Hr|]. split; [rewrite H4; eauto|exact H3].
Defined.

Lemma update_touches_own_document_only_witness :
  _docs (update added_3 store_12).1 !! Some (str "1")
  = _docs store_12 !! Some (str "1").
Proof.
  apply (update_touches_own_document_only added_3 store_12 (Some (str "1"))).
  - split.
    + intros _. eexists. split; [reflexivity|]. vm_compute. reflexivity.
    + intros Ht. vm_compute in Ht. discriminate.
  - vm_compute. discriminate.
Defined.

Lemma changed_modifier_complete_witness :
  default ∅ (dollar_set
     (changed_modifier (obj_of_store store_ab) (fields_of changed_a_b))) !! "a"
  = Some (Some (num 6)).
Proof.
  apply (changed_modifier_complete (obj_of_store store_ab)
           (fields_of changed_a_b) "a" (Some (num 6)));
    vm_compute; reflexivity.
Defined.

(** [{_id: 1, a: 5, b: 7}] changed by [{a: 6, b: undefined}] reads
    [a: 6], no [b], and its [_id] as before. *)
Lemma changed_document_lookup_witness :
  ∃ doc', _docs (update changed_a_b store_ab).1 !! Some (str "1") = Some doc'
          ∧ doc' !! "a" = Some (Some (num 6))
          ∧ doc' !! "b" = None
          ∧ doc' !! "_id" = Some (Some (str "1")).
Proof.
  destruct (changed_document_lookup changed_a_b store_ab
              (obj_of_store store_ab) (fields_of changed_a_b))
    as (_ & doc' & Hlook & Hfield); [vm_compute; reflexivity ..|].
  exists doc'. split; [exact Hlook|].
  rewrite !Hfield. repeat split; vm_compute; reflexivity.
Defined.

Lemma changed_unset_absent_skipped_witness :
  default ∅ (dollar_unset
     (changed_modifier (obj_of_store store_ab) (fields_of changed_unset_c))) !! "c"
  = None.
Proof.
  apply (changed_unset_absent_skipped (obj_of_store store_ab)
           (fields_of changed_unset_c) "c").
  - vm_compute. reflexivity.
  - vm_compute. reflexivity.
  - unfold Object_prototype_names. intros Hin.
    repeat (apply elem_of_cons in Hin as [Hin|Hin]; [discriminate|]).
    by apply elem_of_nil in Hin.
  - vm_compute. reflexivity.
  - vm_compute. reflexivity.
Defined.

Lemma changed_twice_is_noop_witness :
  update changed_a_b (update changed_a_b store_ab).1
  = ((update changed_a_b store_ab).1, Return tt).
Proof.
  apply (changed_twice_is_noop changed_a_b store_ab
           (obj_of_store store_ab) (fields_of changed_a_b)).
  - intros v. apply bool_decide_eq_true_2. reflexivity.
  - unfold Object_prototype_names. intros k Hin.
    repeat (apply elem_of_cons in Hin as [->|Hin]; [vm_compute; reflexivity|]).
    by apply elem_of_nil in Hin.
  - reflexivity.
  - vm_compute. reflexivity.
  - vm_compute. reflexivity.
Defined.

Lemma protocol_errors_precede_members_witness :
  update added_no_fields store_ab =
    (store_ab,
     Throw (Error "Expected not to find a document already present for an add"))
  ∧ update changed_9 store_ab =
    (store_ab, Throw (Error "Expected to find a document to change"))
  ∧ update replaced_3 store_ab =
    (store_ab,
     Throw (Error "I don't know how to deal with this message: replaced")).
Proof.
  split; [|split].
  - apply (protocol_errors_precede_members added_no_fields store_ab);
      [reflexivity|]. eexists. vm_compute. reflexivity.
  - apply (protocol_errors_precede_members changed_9 store_ab);
      [reflexivity|vm_compute; reflexivity].
  - apply (protocol_errors_precede_members replaced_3 store_ab).
    unfold recognized_tags. simpl. intros Hin.
    repeat (apply elem_of_cons in Hin as [Hin|Hin]; [discriminate|]).
    by apply elem_of_nil in Hin.
Defined.

Lemma batch_keeps_ids_consistent_witness :
  ids_consistent (batch 2 false [added_3] empty_collection).1.
Proof.
  apply (batch_keeps_ids_consistent 2 false [added_3] empty_collection).
  - apply Forall_cons. split; [|apply Forall_nil_2]. split.
    + intros _. eexists. split; [reflexivity|]. vm_compute. reflexivity.
    + intros Ht. vm_compute in Ht. discriminate.
  - intros id d Hlook. simpl in Hlook. by rewrite lookup_empty in Hlook.
Defined.

(** A batch of two whose first message is a remove for a missing
    identifier throws and stays suspended. *)
Lemma batch_throw_stays_paused_witness :
  (batch 2 false [removed_9; added_3] store_12).2 =
    Throw (Error "Expected to find a document already present for removed")
  ∧ paused (batch 2 false [removed_9; added_3] store_12).1 = true.
Proof.
  assert (Ht : (batch 2 false [removed_9; added_3] store_12).2 =
    Throw (Error "Expected to find a document already present for removed"))
    by (vm_compute; reflexivity).
  split; [exact Ht|].
  apply (batch_throw_stays_paused 2 false [removed_9; added_3] store_12 _ Ht).
  left. lia.
Defined.


(** ** Where the code and the spec part ways *)

(** An [added] message with all its members that meets none of the four
    violations and still makes [update] throw: its fields carry the
    [_id] of another document, the spread puts that [_id] on the
    document, and the store's [insert] refuses it. *)
Lemma added_with_taken_id_throws :
  has_required_members added_3_as_1
  ∧ ¬ protocol_violation added_3_as_1 store_12
  ∧ update added_3_as_1 store_12 =
      ({| _docs := _docs store_12;
          paused := false;
          calls := [call_insert {[ "_id" := Some (str "1") ]}] |},
       Throw (ContractViolation "insert")).
Proof.
  split; [|split].
  - intros _. eexists. reflexivity.
  - unfold protocol_violation.
    intros [[_ [d Hd]]|[[Ht _]|[[Ht _]|Hout]]].
    + vm_compute in Hd. discriminate.
    + vm_compute in Ht. discriminate.
    + vm_compute in Ht. discriminate.
    + apply Hout. unfold recognized_tags. simpl. repeat constructor.
  - vm_compute. reflexivity.
Qed.

Lemma update_throws_error_iff_violation_witness :
  has_required_members removed_9
  ∧ protocol_violation removed_9 store_12
  ∧ ∃ text, update removed_9 store_12 = (store_12, Throw (Error text)).
Proof.
  assert (Hm : has_required_members removed_9).
  { intros [Ht|Ht]; vm_compute in Ht; discriminate. }
  assert (Hv : protocol_violation removed_9 store_12).
  { right. left. split; [reflexivity|vm_compute; reflexivity]. }
  split; [exact Hm|]. split; [exact Hv|].
  destruct (update_throws_error_iff_violation removed_9 store_12 Hm)
    as (_ & Hthrow & _).
  exact (Hthrow Hv).
Defined.

(** C6.  The document [{_id: '1', a: 5, b: 7}] has no field [toString],
    and the message proposes [undefined] for it, which the deep
    equality finds equal to the [undefined] an absent field stands for.
    Yet [doc[key]] reads the function every object inherits from
    [Object.prototype], the comparison fails, and [update] calls the
    collection's [update] with [{$unset: {toString: 1}}]. *)
Theorem unset_of_inherited_name_calls_update :
  _docs store_ab !! mongoId_of changed_unset_toString
    = Some (obj_of_store store_ab)
  ∧ obj_of_store store_ab !! "toString" = None
  ∧ m_fields changed_unset_toString = Some {[ "toString" := undefined ]}
  ∧ EJSON_equals (obj_get (obj_of_store store_ab) "toString") undefined = true
  ∧ doc_get (obj_of_store store_ab) "toString" = Inherited "toString"
  ∧ update changed_unset_toString store_ab =
      ({| _docs := _docs store_ab;
          paused := false;
          calls := [call_update_modifier (Some (str "1"))
                      {| dollar_set := None;
                         dollar_unset := Some {[ "toString" := 1 ]} |}] |},
       Return tt).
Proof. repeat split; vm_compute; reflexivity. Qed.

(** C9.  For the same document and proposed mapping the patch has
    [toString] in [$unset], although the document stores nothing under
    that name and nothing is what the mapping proposes. *)
Theorem inherited_name_enters_unset :
  obj_of_store store_ab !! "toString" = None
  ∧ fields_of changed_unset_toString !! "toString" = Some undefined
  ∧ EJSON_equals (obj_get (obj_of_store store_ab) "toString") undefined = true
  ∧ changed_modifier (obj_of_store store_ab) (fields_of changed_unset_toString)
    = {| dollar_set := None; dollar_unset := Some {[ "toString" := 1 ]} |}.
Proof. repeat split; vm_compute; reflexivity. Qed.

(** C7.  The document [{_id: '1', a: 5, __proto__: 7}] holds a value
    under its own key [__proto__], and the message maps that field to
    [undefined].  The assignment [modifier.$unset[key] = 1] reaches the
    [__proto__] setter and stores nothing: [update] hands the
    collection [{$unset: {}}], and the document keeps the field. *)
Theorem unset_of_proto_field_keeps_it :
  _docs store_proto !! mongoId_of changed_unset_proto
    = Some (obj_of_store store_proto)
  ∧ obj_of_store store_proto !! "__proto__" = Some (Some (num 7))
  ∧ m_fields changed_unset_proto = Some {[ "__proto__" := undefined ]}
  ∧ EJSON_equals (Some (num 7)) undefined = false
  ∧ update changed_unset_proto store_proto =
      ({| _docs := _docs store_proto;
          paused := false;
          calls := [call_update_modifier (Some (str "1"))
                      {| dollar_set := None; dollar_unset := Some ∅ |}] |},
       Return tt)
  ∧ obj_of_store (update changed_unset_proto store_proto).1 !! "__proto__"
    = Some (Some (num 7)).
Proof. repeat split; vm_compute; reflexivity. Qed.
